(** * uniwidth: display width of runes and strings

    A shallow embedding of the width-classification engine of
    [github.com/unilibs/uniwidth] (the tables of tables.go, the classifier
    and string scanner of uniwidth.go, the options API) together with the
    properties stated about it.

    Conventions.
    - A Go [rune] (int32) is a [Z]; the engine only compares runes, it never
      does arithmetic on them.  Where a statement ranges over "every 32-bit
      input" the bound [isInt32] is written out.
    - A Go [string] is a [list byte].  Indexing [s[i]] reads a byte;
      [[]rune(s)] and [for _, r := range s] decode UTF-8 the way the Go
      runtime does (see [runes]).
    - A Go [int] is a [Z].  The only arithmetic on ints is [width += w] and
      the index arithmetic of the binary search.  With [0 <= w <= 2] the
      former stays within twice the length of the string
      ([StringWidth_total]), the latter within twice the length of the
      table, and Go stores those lengths in an [int] itself.
    - Indexing a slice out of range panics in Go.  The binary search is the
      only place that indexes a slice with a computed index; the embedding
      returns [None] for such a panic and [Some v] for a normal return. *)

From Equations Require Import Equations.
From Stdlib Require Import ZArith List Lia Bool Sorted Permutation.
From Stdlib Require Import Strings.Byte.
Import ListNotations.
Local Open Scope Z_scope.

(** ** Runes, bytes and rune ranges *)

Definition rune := Z.

Definition isInt32 (r : Z) : Prop := - 2 ^ 31 <= r < 2 ^ 31.

Definition byteVal (b : byte) : Z := Z.of_N (Byte.to_N b).

(** [type runeRange struct { first rune; last rune }] *)
Record runeRange : Type := mkRange { first : rune; last : rune }.

(** [r] lies in the closed interval of [rr]. *)
Definition inRange (r : rune) (rr : runeRange) : Prop :=
  first rr <= r <= last rr.

Definition inRangeb (r : rune) (rr : runeRange) : bool :=
  (first rr <=? r) && (r <=? last rr).

(** [r] lies in some interval stored in [table]. *)
Definition inTable (r : rune) (table : list runeRange) : Prop :=
  exists rr, In rr table /\ inRange r rr.

Definition inTableb (r : rune) (table : list runeRange) : bool :=
  existsb (inRangeb r) table.

(** ** The panic monad: [None] is a run-time panic *)

Definition bind {A B : Type} (m : option A) (k : A -> option B) : option B :=
  match m with
  | Some a => k a
  | None => None
  end.

Notation "x <- m ;; k" := (bind m (fun x => k))
  (at level 61, m at next level, right associativity).

(** ** tables.go *)

Module TablesGo.

Local Notation "{{ a , b }}" := (mkRange a b).

Definition wideTable : list runeRange :=
  [ {{0x3000, 0x303F}};
    {{0x2E80, 0x2E99}};
    {{0x2E9B, 0x2EF3}};
    {{0x2F00, 0x2FD5}};
    {{0x31C0, 0x31E3}};
    {{0x3200, 0x321E}};
    {{0x3220, 0x3247}};
    {{0x3250, 0x4DBE}};
    {{0xFE30, 0xFE4F}};
    {{0xFF01, 0xFF60}};
    {{0xFFE0, 0xFFE6}};
    {{0x1B000, 0x1B0FF}};
    {{0x20000, 0x2A6DF}};
    {{0x2A700, 0x2B73F}};
    {{0x2B740, 0x2B81F}};
    {{0x2B820, 0x2CEAF}};
    {{0x2CEB0, 0x2EBEF}};
    {{0x30000, 0x3134F}};
    {{0x2600, 0x26FF}};
    {{0x2700, 0x27BF}};
    {{0x1F000, 0x1F02F}};
    {{0x1F0A0, 0x1F0FF}};
    {{0x1FA00, 0x1FA6F}};
    {{0x1FA70, 0x1FAFF}};
    {{0x10000, 0x1007F}} ].

Definition zeroWidthTable : list runeRange :=
  [ {{0x0080, 0x009F}};
    {{0x0300, 0x036F}};
    {{0x1AB0, 0x1AFF}};
    {{0x0591, 0x05BD}};
    {{0x05BF, 0x05BF}};
    {{0x05C1, 0x05C2}};
    {{0x05C4, 0x05C5}};
    {{0x05C7, 0x05C7}};
    {{0x0610, 0x061A}};
    {{0x064B, 0x065F}};
    {{0x0670, 0x0670}};
    {{0x06D6, 0x06DC}};
    {{0x06DF, 0x06E4}};
    {{0x06E7, 0x06E8}};
    {{0x06EA, 0x06ED}};
    {{0x0901, 0x0902}};
    {{0x093A, 0x093A}};
    {{0x093C, 0x093C}};
    {{0x0941, 0x0948}};
    {{0x094D, 0x094D}};
    {{0x0951, 0x0957}};
    {{0x0962, 0x0963}};
    {{0x00AD, 0x00AD}};
    {{0x200B, 0x200F}};
    {{0x20D0, 0x20FF}};
    {{0xFE20, 0xFE2F}};
    {{0xFE30, 0xFE2F}};
    {{0xFEFF, 0xFEFF}} ].

Definition ambiguousTable : list runeRange :=
  [ {{0x00A1, 0x00A1}};
    {{0x00A4, 0x00A4}};
    {{0x00A7, 0x00A8}};
    {{0x00AA, 0x00AA}};
    {{0x00AD, 0x00AE}};
    {{0x00B0, 0x00B4}};
    {{0x00B6, 0x00BA}};
    {{0x00BC, 0x00BF}};
    {{0x00C6, 0x00C6}};
    {{0x00D0, 0x00D0}};
    {{0x00D7, 0x00D8}};
    {{0x00DE, 0x00E1}};
    {{0x00E6, 0x00E6}};
    {{0x00E8, 0x00EA}};
    {{0x00EC, 0x00ED}};
    {{0x00F0, 0x00F0}};
    {{0x00F2, 0x00F3}};
    {{0x00F7, 0x00FA}};
    {{0x00FC, 0x00FC}};
    {{0x00FE, 0x00FE}};
    {{0x0101, 0x0101}};
    {{0x0111, 0x0111}};
    {{0x0113, 0x0113}};
    {{0x011B, 0x011B}};
    {{0x0126, 0x0127}};
    {{0x012B, 0x012B}};
    {{0x0131, 0x0133}};
    {{0x0138, 0x0138}};
    {{0x013F, 0x0142}};
    {{0x0144, 0x0144}};
    {{0x0148, 0x014B}};
    {{0x014D, 0x014D}};
    {{0x0152, 0x0153}};
    {{0x0166, 0x0167}};
    {{0x016B, 0x016B}};
    {{0x01CE, 0x01CE}};
    {{0x01D0, 0x01D0}};
    {{0x01D2, 0x01D2}};
    {{0x01D4, 0x01D4}};
    {{0x01D6, 0x01D6}};
    {{0x01D8, 0x01D8}};
    {{0x01DA, 0x01DA}};
    {{0x01DC, 0x01DC}};
    {{0x2500, 0x257F}};
    {{0x2580, 0x259F}};
    {{0x25A0, 0x25FF}} ].

End TablesGo.

(** ** uniwidth.go: binary search over a range table

    [[
    low, high := 0, len(table)-1
    for low <= high {
        mid := (low + high) / 2
        rr := table[mid]
        if r < rr.first { high = mid - 1 }
        else if r > rr.last { low = mid + 1 }
        else { return true }
    }
    return false
    ]]

    [binarySearchLoop] is the [for] loop started from an arbitrary
    [low, high]; Go's [/] on ints truncates towards zero ([Z.quot]) and
    [table[mid]] panics when [mid] is not an index of [table]. *)

Equations? binarySearchLoop (r : rune) (table : list runeRange) (low high : Z)
  : option bool by wf (Z.to_nat (high - low + 1)) lt :=
  binarySearchLoop r table low high with Z_le_dec low high => {
    | right _ := Some false
    | left _ with Z_lt_dec (Z.quot (low + high) 2) 0 => {
      | left _ := None
      | right _ with nth_error table (Z.to_nat (Z.quot (low + high) 2)) => {
        | None := None
        | Some rr with Z_lt_dec r (first rr) => {
          | left _ := binarySearchLoop r table low (Z.quot (low + high) 2 - 1)
          | right _ with Z_lt_dec (last rr) r => {
            | left _ :=
                binarySearchLoop r table (Z.quot (low + high) 2 + 1) high
            | right _ := Some true } } } } }.
Proof.
  all: assert (low <= Z.quot (low + high) 2 <= high)
    by (split; [apply Z.quot_le_lower_bound | apply Z.quot_le_upper_bound];
        lia);
    lia.
Qed.

Definition binarySearch (r : rune) (table : list runeRange) : option bool :=
  binarySearchLoop r table 0 (Z.of_nat (length table) - 1).

(** [func isRegionalIndicator(r rune) bool] *)
Definition isRegionalIndicator (r : rune) : bool :=
  (0x1F1E6 <=? r) && (r <=? 0x1F1FF).

(** [func isASCIIOnly(s string) bool]: the loop returns [false] at the first
    byte [>= 0x80]. *)
Fixpoint isASCIIOnly (s : list byte) : bool :=
  match s with
  | [] => true
  | b :: s' => if 0x80 <=? byteVal b then false else isASCIIOnly s'
  end.

(** The number of code units of [s] that are neither control characters
    (below [0x20]) nor DELETE ([0x7F]). *)
Definition printableCount (s : list byte) : Z :=
  Z.of_nat (length (filter
    (fun b => negb ((byteVal b <? 0x20) || (byteVal b =? 0x7F))) s)).

(** ** Go's string-to-rune conversion

    [[]rune(s)] and [for _, r := range s] walk the bytes of [s] with the
    runtime's UTF-8 decoder: a byte below [0x80] is its own rune; a
    well-formed two-, three- or four-byte sequence yields its code point
    provided it is not overlong, not a surrogate and not above [0x10FFFF];
    anything else yields [RuneError] and consumes one byte. *)

Definition RuneError : rune := 0xFFFD.

Definition isCont (b : Z) : bool := (0x80 <=? b) && (b <=? 0xBF).

Definition rune2 (s0 s1 : Z) : rune :=
  Z.lor (Z.shiftl (Z.land s0 0x1F) 6) (Z.land s1 0x3F).

Definition rune3 (s0 s1 s2 : Z) : rune :=
  Z.lor (Z.lor (Z.shiftl (Z.land s0 0x0F) 12) (Z.shiftl (Z.land s1 0x3F) 6))
        (Z.land s2 0x3F).

Definition rune4 (s0 s1 s2 s3 : Z) : rune :=
  Z.lor (Z.lor (Z.lor (Z.shiftl (Z.land s0 0x07) 18)
                      (Z.shiftl (Z.land s1 0x3F) 12))
               (Z.shiftl (Z.land s2 0x3F) 6))
        (Z.land s3 0x3F).

Definition ok2 (s0 s1 : Z) : bool :=
  (0xC0 <=? s0) && (s0 <? 0xE0) && isCont s1 && (0x7F <? rune2 s0 s1).

Definition ok3 (s0 s1 s2 : Z) : bool :=
  (0xE0 <=? s0) && (s0 <? 0xF0) && isCont s1 && isCont s2 &&
  (0x7FF <? rune3 s0 s1 s2) &&
  negb ((0xD800 <=? rune3 s0 s1 s2) && (rune3 s0 s1 s2 <=? 0xDFFF)).

Definition ok4 (s0 s1 s2 s3 : Z) : bool :=
  (0xF0 <=? s0) && (s0 <? 0xF8) && isCont s1 && isCont s2 && isCont s3 &&
  (0xFFFF <? rune4 s0 s1 s2 s3) && (rune4 s0 s1 s2 s3 <=? 0x10FFFF).

Fixpoint runes (s : list byte) : list rune :=
  match s with
  | [] => []
  | c0 :: t0 =>
    let s0 := byteVal c0 in
    if s0 <? 0x80 then s0 :: runes t0 else
    match t0 with
    | [] => RuneError :: runes t0
    | c1 :: t1 =>
      let s1 := byteVal c1 in
      if ok2 s0 s1 then rune2 s0 s1 :: runes t1 else
      match t1 with
      | [] => RuneError :: runes t0
      | c2 :: t2 =>
        let s2 := byteVal c2 in
        if ok3 s0 s1 s2 then rune3 s0 s1 s2 :: runes t2 else
        match t2 with
        | [] => RuneError :: runes t0
        | c3 :: t3 =>
          let s3 := byteVal c3 in
          if ok4 s0 s1 s2 s3 then rune4 s0 s1 s2 s3 :: runes t3
          else RuneError :: runes t0
        end
      end
    end
  end.

(** ** The options API: the option record *)

(** [type EAWidth int] with [EANarrow = 1] and [EAWide = 2]. *)
Definition EAWidth := Z.
Definition EANarrow : EAWidth := 1.
Definition EAWide : EAWidth := 2.

Record Options : Type := mkOptions
  { EastAsianAmbiguous : EAWidth;
    EmojiPresentation : bool }.

(** [type Option]: a function on a pointer to [Options]; a functional
    option updates the record in place. *)
Definition Option := Options -> Options.

Definition defaultOptions : Options :=
  {| EastAsianAmbiguous := EANarrow; EmojiPresentation := true |}.

Definition WithEastAsianAmbiguous (width : EAWidth) : Option :=
  fun o => {| EastAsianAmbiguous := width;
              EmojiPresentation := EmojiPresentation o |}.

Definition WithEmojiPresentation (emoji : bool) : Option :=
  fun o => {| EastAsianAmbiguous := EastAsianAmbiguous o;
              EmojiPresentation := emoji |}.

(** [options := defaultOptions(); for _, opt := range opts { opt(&options) }] *)
Definition buildOptions (opts : list Option) : Options :=
  fold_left (fun options opt => opt options) opts defaultOptions.

(** ** The classifier and the string scanners

    Two things the code refers to are declared elsewhere and are taken as
    parameters:
    - the generated tables [wideTableGenerated], [zeroWidthTableGenerated]
      and [ambiguousTableGenerated] (tables_generated.go, the output of
      cmd/generate-tables);
    - Go's [unicode.In(r, unicode.Mn, unicode.Me, unicode.Mc)], the test for
      membership in the combining-mark categories of the standard library. *)

Section Engine.

Variables wideTableGenerated zeroWidthTableGenerated ambiguousTableGenerated
  : list runeRange.
Variable unicodeInMark : rune -> bool.

(** [func binarySearchWidth(r rune) int] *)
Definition binarySearchWidth (r : rune) : option Z :=
  inWide <- binarySearch r wideTableGenerated ;;
  if inWide : bool then Some 2 else
  inZero <- binarySearch r zeroWidthTableGenerated ;;
  if inZero : bool then Some 0 else
  inAmbiguous <- binarySearch r ambiguousTableGenerated ;;
  if inAmbiguous : bool then Some 1 else Some 1.

(** [func RuneWidth(r rune) int] *)
Definition RuneWidth (r : rune) : option Z :=
  (* Tier 1: ASCII *)
  if r <? 0x80 then
    if r <? 0x20 then Some 0
    else if r =? 0x7F then Some 0
    else Some 1
  (* Tier 2: common CJK *)
  else if (0x4E00 <=? r) && (r <=? 0x9FFF) then Some 2
  else if (0xAC00 <=? r) && (r <=? 0xD7AF) then Some 2
  else if (0x3040 <=? r) && (r <=? 0x312F) then Some 2
  else if (0xF900 <=? r) && (r <=? 0xFAFF) then Some 2
  (* Tier 3: common emoji *)
  else if (0x1F600 <=? r) && (r <=? 0x1F64F) then Some 2
  else if (0x1F300 <=? r) && (r <=? 0x1F5FF) then Some 2
  else if (0x1F680 <=? r) && (r <=? 0x1F6FF) then Some 2
  else if (0x1F900 <=? r) && (r <=? 0x1F9FF) then Some 2
  else if (0x2600 <=? r) && (r <=? 0x26FF) then Some 2
  else if (0x2700 <=? r) && (r <=? 0x27BF) then Some 2
  (* zero-width characters *)
  else if r =? 0x200B then Some 0
  else if r =? 0x200C then Some 0
  else if r =? 0x200D then Some 0
  else if (0xFE00 <=? r) && (r <=? 0xFE0F) then Some 0
  else if (0xE0100 <=? r) && (r <=? 0xE01EF) then Some 0
  else if unicodeInMark r then Some 0
  (* Tier 4: binary search fallback *)
  else binarySearchWidth r.

(** The guards of [RuneWidth] that return before the fallback: the ASCII
    tier, the hot wide-script ranges, the hot emoji ranges and the hot
    zero-width checks. *)
Definition hotTier (r : rune) : bool :=
  (r <? 0x80) ||
  ((0x4E00 <=? r) && (r <=? 0x9FFF)) ||
  ((0xAC00 <=? r) && (r <=? 0xD7AF)) ||
  ((0x3040 <=? r) && (r <=? 0x312F)) ||
  ((0xF900 <=? r) && (r <=? 0xFAFF)) ||
  ((0x1F600 <=? r) && (r <=? 0x1F64F)) ||
  ((0x1F300 <=? r) && (r <=? 0x1F5FF)) ||
  ((0x1F680 <=? r) && (r <=? 0x1F6FF)) ||
  ((0x1F900 <=? r) && (r <=? 0x1F9FF)) ||
  ((0x2600 <=? r) && (r <=? 0x26FF)) ||
  ((0x2700 <=? r) && (r <=? 0x27BF)) ||
  (r =? 0x200B) || (r =? 0x200C) || (r =? 0x200D) ||
  ((0xFE00 <=? r) && (r <=? 0xFE0F)) ||
  ((0xE0100 <=? r) && (r <=? 0xE01EF)) ||
  unicodeInMark r.

(** The fast path of [StringWidth]:
    [[
    width := 0
    for i := 0; i < len(s); i++ {
        b := s[i]
        if b < 0x20 || b == 0x7F { continue }
        width++
    }
    ]] *)
Fixpoint asciiWidthLoop (s : list byte) (width : Z) : Z :=
  match s with
  | [] => width
  | b :: s' =>
    if (byteVal b <? 0x20) || (byteVal b =? 0x7F)
    then asciiWidthLoop s' width
    else asciiWidthLoop s' (width + 1)
  end.

(** The lookahead loop of [StringWidth] over [runes[i:]]; skipping the
    second rune of a pair ([i++] before [continue]) is a recursive call on
    the tail of the tail. *)
Fixpoint stringWidthLoop (rs : list rune) (width : Z) : option Z :=
  match rs with
  | [] => Some width
  | r :: rest =>
    match rest with
    | next :: rest' =>
      if isRegionalIndicator r && isRegionalIndicator next
      then stringWidthLoop rest' (width + 2)
      else if next =? 0xFE0E then stringWidthLoop rest' (width + 1)
      else if next =? 0xFE0F then stringWidthLoop rest' (width + 2)
      else w <- RuneWidth r ;; stringWidthLoop rest (width + w)
    | [] => w <- RuneWidth r ;; stringWidthLoop rest (width + w)
    end
  end.

(** [func StringWidth(s string) int] *)
Definition StringWidth (s : list byte) : option Z :=
  if isASCIIOnly s then Some (asciiWidthLoop s 0)
  else stringWidthLoop (runes s) 0.

(** The sum of the widths of the code points of a string, each classified
    on its own by [RuneWidth]: the reference the fast path is compared
    with. *)
Fixpoint sumOfRuneWidths (rs : list rune) : option Z :=
  match rs with
  | [] => Some 0
  | r :: rest =>
    w <- RuneWidth r ;;
    total <- sumOfRuneWidths rest ;;
    Some (w + total)
  end.

(** [func binarySearchWidthInternal(r rune) int] *)
Definition binarySearchWidthInternal (r : rune) : option Z :=
  inWide <- binarySearch r wideTableGenerated ;;
  if inWide : bool then Some 2 else
  inZero <- binarySearch r zeroWidthTableGenerated ;;
  if inZero : bool then Some 0 else
  inAmbiguous <- binarySearch r ambiguousTableGenerated ;;
  if inAmbiguous : bool then Some (-1) else Some 1.

(** [func runeWidthInternal(r rune) int] *)
Definition runeWidthInternal (r : rune) : option Z :=
  if r <? 0x80 then
    if r <? 0x20 then Some 0
    else if r =? 0x7F then Some 0
    else Some 1
  else if (0x4E00 <=? r) && (r <=? 0x9FFF) then Some 2
  else if (0xAC00 <=? r) && (r <=? 0xD7AF) then Some 2
  else if (0x3040 <=? r) && (r <=? 0x30FF) then Some 2
  else if (0xF900 <=? r) && (r <=? 0xFAFF) then Some 2
  else if (0x1F600 <=? r) && (r <=? 0x1F64F) then Some 2
  else if (0x1F300 <=? r) && (r <=? 0x1F5FF) then Some 2
  else if (0x1F680 <=? r) && (r <=? 0x1F6FF) then Some 2
  else if (0x1F900 <=? r) && (r <=? 0x1F9FF) then Some 2
  else if (0x2600 <=? r) && (r <=? 0x26FF) then Some 2
  else if (0x2700 <=? r) && (r <=? 0x27BF) then Some 2
  else if (r =? 0x200D) || (r =? 0x200C) then Some 0
  else if (0xFE00 <=? r) && (r <=? 0xFE0F) then Some 0
  else if (0xE0100 <=? r) && (r <=? 0xE01EF) then Some 0
  else if ((0x0300 <=? r) && (r <=? 0x036F)) ||
          ((0x1AB0 <=? r) && (r <=? 0x1AFF)) ||
          ((0x1DC0 <=? r) && (r <=? 0x1DFF)) ||
          ((0x20D0 <=? r) && (r <=? 0x20FF)) ||
          ((0xFE20 <=? r) && (r <=? 0xFE2F)) then Some 0
  else binarySearchWidthInternal r.

(** The guards of [runeWidthInternal] that return before the fallback. *)
Definition hotTierInternal (r : rune) : bool :=
  (r <? 0x80) ||
  ((0x4E00 <=? r) && (r <=? 0x9FFF)) ||
  ((0xAC00 <=? r) && (r <=? 0xD7AF)) ||
  ((0x3040 <=? r) && (r <=? 0x30FF)) ||
  ((0xF900 <=? r) && (r <=? 0xFAFF)) ||
  ((0x1F600 <=? r) && (r <=? 0x1F64F)) ||
  ((0x1F300 <=? r) && (r <=? 0x1F5FF)) ||
  ((0x1F680 <=? r) && (r <=? 0x1F6FF)) ||
  ((0x1F900 <=? r) && (r <=? 0x1F9FF)) ||
  ((0x2600 <=? r) && (r <=? 0x26FF)) ||
  ((0x2700 <=? r) && (r <=? 0x27BF)) ||
  ((r =? 0x200D) || (r =? 0x200C)) ||
  ((0xFE00 <=? r) && (r <=? 0xFE0F)) ||
  ((0xE0100 <=? r) && (r <=? 0xE01EF)) ||
  (((0x0300 <=? r) && (r <=? 0x036F)) ||
   ((0x1AB0 <=? r) && (r <=? 0x1AFF)) ||
   ((0x1DC0 <=? r) && (r <=? 0x1DFF)) ||
   ((0x20D0 <=? r) && (r <=? 0x20FF)) ||
   ((0xFE20 <=? r) && (r <=? 0xFE2F))).

(** A code point of the ambiguous class: the classifier's outcome for it is
    "ambiguous", which [runeWidthInternal] reports as [-1]. *)
Definition ambiguousClass (r : rune) : Prop :=
  runeWidthInternal r = Some (-1).

(** [func RuneWidthWithOptions(r rune, opts ...Option) int] *)
Definition RuneWidthWithOptions (r : rune) (opts : list Option) : option Z :=
  let options := buildOptions opts in
  width <- runeWidthInternal r ;;
  if width =? -1 then Some (EastAsianAmbiguous options) else Some width.

(** The rune loop of [StringWidthWithOptions]. *)
Fixpoint widthWithOptionsLoop (options : Options) (rs : list rune) (width : Z)
  : option Z :=
  match rs with
  | [] => Some width
  | r :: rest =>
    w <- runeWidthInternal r ;;
    if w =? -1
    then widthWithOptionsLoop options rest (width + EastAsianAmbiguous options)
    else widthWithOptionsLoop options rest (width + w)
  end.

(** [func StringWidthWithOptions(s string, opts ...Option) int] *)
Definition StringWidthWithOptions (s : list byte) (opts : list Option)
  : option Z :=
  let options := buildOptions opts in
  if isASCIIOnly s then Some (Z.of_nat (length s))
  else widthWithOptionsLoop options (runes s) 0.

End Engine.

(** ** The range-table invariants of the data model

    A table is well formed when every entry has [first <= last], sorted when
    the [first] fields ascend, disjoint when no two entries share a code
    point, and merged when no two entries touch (the generator's
    [optimizeRanges] merges [current] into [last] when
    [current.first <= last.last+1]). *)

Definition overlaps (a b : runeRange) : Prop :=
  first a <= last b /\ first b <= last a.

Definition touches (a b : runeRange) : Prop :=
  last a + 1 = first b \/ last b + 1 = first a.

Definition wellFormed (table : list runeRange) : Prop :=
  Forall (fun rr => first rr <= last rr) table.

Definition sortedByFirst (table : list runeRange) : Prop :=
  StronglySorted (fun a b => first a <= first b) table.

Definition pairwiseDisjoint (table : list runeRange) : Prop :=
  ForallOrdPairs (fun a b => ~ overlaps a b) table.

Definition noneTouching (table : list runeRange) : Prop :=
  ForallOrdPairs (fun a b => ~ touches a b) table.

(** Earlier entries end before later entries begin: what sortedness,
    disjointness and well-formedness amount to together. *)
Definition chained (table : list runeRange) : Prop :=
  forall (i j : nat) (a b : runeRange),
    (i < j)%nat -> nth_error table i = Some a -> nth_error table j = Some b ->
    last a < first b.

(** [r] lies in the entry at some index of the window [low..high]. *)
Definition hitIn (r : rune) (table : list runeRange) (low high : Z) : Prop :=
  exists i rr, low <= i <= high /\
               nth_error table (Z.to_nat i) = Some rr /\ inRange r rr.

(** The invariants a fallback table is to satisfy. *)
Definition rangeTableInvariants (table : list runeRange) : Prop :=
  sortedByFirst table /\ wellFormed table /\
  pairwiseDisjoint table /\ noneTouching table.

(** No code point covered by [table] is caught by a hot-path guard. *)
Definition hotDisjoint (unicodeInMark : rune -> bool)
  (table : list runeRange) : Prop :=
  forall (rr : runeRange) (r : rune),
    In rr table -> inRange r rr -> hotTier unicodeInMark r = false.

(** The five combining-mark blocks that [runeWidthInternal] tests in place
    of [unicode.In]; they serve as a concrete mark predicate wherever the
    engine is run on concrete input. *)
Definition combiningBlocks (r : rune) : bool :=
  ((0x0300 <=? r) && (r <=? 0x036F)) ||
  ((0x1AB0 <=? r) && (r <=? 0x1AFF)) ||
  ((0x1DC0 <=? r) && (r <=? 0x1DFF)) ||
  ((0x20D0 <=? r) && (r <=? 0x20FF)) ||
  ((0xFE20 <=? r) && (r <=? 0xFE2F)).

(** The engine run on concrete parameters: the tables of tables.go for the
    three fallback tables and [combiningBlocks] for the mark test. *)
Module OnTablesGo.

Definition RuneWidth : rune -> option Z :=
  RuneWidth TablesGo.wideTable TablesGo.zeroWidthTable
            TablesGo.ambiguousTable combiningBlocks.

Definition StringWidth : list byte -> option Z :=
  StringWidth TablesGo.wideTable TablesGo.zeroWidthTable
              TablesGo.ambiguousTable combiningBlocks.

Definition StringWidthWithOptions : list byte -> list Option -> option Z :=
  StringWidthWithOptions TablesGo.wideTable TablesGo.zeroWidthTable
                         TablesGo.ambiguousTable.

End OnTablesGo.

(** A generated wide table reduced to the one entry that matters for flags:
    the regional indicators, which are emoji and meet no hot path. *)
Definition regionalIndicatorTable : list runeRange :=
  [ mkRange 0x1F1E6 0x1F1FF ].

(** ** cmd/generate-tables: the pure part of the table generator

    The generator's [runeRange] is the same struct as the library's.  Its
    arithmetic on runes is the one addition [last.last+1], on int32. *)

Definition wrapInt32 (z : Z) : Z := (z + 2 ^ 31) mod 2 ^ 32 - 2 ^ 31.

(** [func rangesOverlap(a, b runeRange) bool] *)
Definition rangesOverlap (a b : runeRange) : bool :=
  (first a <=? last b) && (first b <=? last a).

(** The inner loop of [removeOverlappingRanges]: it stops at the first hot
    path that overlaps [rr]. *)
Fixpoint overlapsAny (rr : runeRange) (hotPaths : list runeRange) : bool :=
  match hotPaths with
  | [] => false
  | hp :: hotPaths' =>
    if rangesOverlap rr hp then true else overlapsAny rr hotPaths'
  end.

(** The outer loop of [removeOverlappingRanges], with [result] as it
    grows. *)
Fixpoint removeOverlappingLoop (ranges hotPaths result : list runeRange)
  : list runeRange :=
  match ranges with
  | [] => result
  | rr :: ranges' =>
    if overlapsAny rr hotPaths
    then removeOverlappingLoop ranges' hotPaths result
    else removeOverlappingLoop ranges' hotPaths (result ++ [rr])
  end.

(** [func removeOverlappingRanges(ranges, hotPaths []runeRange) []runeRange] *)
Definition removeOverlappingRanges (ranges hotPaths : list runeRange)
  : list runeRange :=
  removeOverlappingLoop ranges hotPaths [].

(** [func generateZeroWidthRanges() []runeRange] *)
Definition generateZeroWidthRanges : list runeRange :=
  [ mkRange 0x0000 0x001F;
    mkRange 0x007F 0x007F;
    mkRange 0x0080 0x009F;
    mkRange 0x00AD 0x00AD;
    mkRange 0x0300 0x036F;
    mkRange 0x0591 0x05BD;
    mkRange 0x05BF 0x05BF;
    mkRange 0x05C1 0x05C2;
    mkRange 0x05C4 0x05C5;
    mkRange 0x05C7 0x05C7;
    mkRange 0x0610 0x061A;
    mkRange 0x064B 0x065F;
    mkRange 0x0670 0x0670;
    mkRange 0x06D6 0x06DC;
    mkRange 0x06DF 0x06E4;
    mkRange 0x06E7 0x06E8;
    mkRange 0x06EA 0x06ED;
    mkRange 0x0901 0x0902;
    mkRange 0x093A 0x093A;
    mkRange 0x093C 0x093C;
    mkRange 0x0941 0x0948;
    mkRange 0x094D 0x094D;
    mkRange 0x0951 0x0957;
    mkRange 0x0962 0x0963;
    mkRange 0x200B 0x200F;
    mkRange 0x20D0 0x20FF;
    mkRange 0xFE00 0xFE0F;
    mkRange 0xFE20 0xFE2F;
    mkRange 0xFEFF 0xFEFF;
    mkRange 0xE0100 0xE01EF ].

(** The [hotPaths] of [filterHotPaths]. *)
Definition wideHotPaths : list runeRange :=
  [ mkRange 0x0000 0x007F;
    mkRange 0x4E00 0x9FFF;
    mkRange 0xAC00 0xD7AF;
    mkRange 0x3040 0x30FF;
    mkRange 0xF900 0xFAFF;
    mkRange 0x1F600 0x1F64F;
    mkRange 0x1F300 0x1F5FF;
    mkRange 0x1F680 0x1F6FF;
    mkRange 0x1F900 0x1F9FF;
    mkRange 0x2600 0x26FF;
    mkRange 0x2700 0x27BF ].

(** [func filterHotPaths(ranges []runeRange) []runeRange] *)
Definition filterHotPaths (ranges : list runeRange) : list runeRange :=
  removeOverlappingRanges ranges wideHotPaths.

(** The [hotPaths] of [filterZeroWidthHotPaths]. *)
Definition zeroWidthHotPaths : list runeRange :=
  [ mkRange 0x0000 0x001F;
    mkRange 0x007F 0x007F;
    mkRange 0x200D 0x200D;
    mkRange 0x200C 0x200C;
    mkRange 0xFE00 0xFE0F;
    mkRange 0xE0100 0xE01EF ].

(** [func filterZeroWidthHotPaths(ranges []runeRange) []runeRange] *)
Definition filterZeroWidthHotPaths (ranges : list runeRange)
  : list runeRange :=
  removeOverlappingRanges ranges zeroWidthHotPaths.

(** [func filterAmbiguousHotPaths(ranges []runeRange) []runeRange] *)
Definition filterAmbiguousHotPaths (ranges : list runeRange)
  : list runeRange :=
  removeOverlappingRanges ranges [ mkRange 0x0000 0x007F ].

(** [func mergeRanges(a, b []runeRange) []runeRange]: a fresh slice holding
    [a] followed by [b]. *)
Definition mergeRanges (a b : list runeRange) : list runeRange :=
  ([] ++ a) ++ b.

(** What [sort.Slice(ranges, less)] with [less(i, j)] the comparison
    [ranges[i].first < ranges[j].first] guarantees of the standard
    library's sort: the slice is permuted in place and ends up with no
    later element below an earlier one. *)
Definition sortsByFirst (sortSlice : list runeRange -> list runeRange)
  : Prop :=
  forall ranges,
    Permutation ranges (sortSlice ranges) /\ sortedByFirst (sortSlice ranges).

(** No [last] field on which [last.last+1] would wrap around. *)
Definition belowMaxInt32 (ranges : list runeRange) : Prop :=
  Forall (fun rr => - 2 ^ 31 <= last rr < 2 ^ 31 - 1) ranges.

Section Generator.

(** [sort.Slice] of the standard library, specialised to the comparison
    that [optimizeRanges] passes. *)
Variable sortSlice : list runeRange -> list runeRange.

(** The merge loop of [optimizeRanges].  [result] is never empty; it is
    kept as [init ++ [lastEntry]], where [lastEntry] is the element that
    the pointer [last := &result[len(result)-1]] designates. *)
Fixpoint optimizeLoop (ranges init : list runeRange) (lastEntry : runeRange)
  : list runeRange :=
  match ranges with
  | [] => init ++ [lastEntry]
  | current :: ranges' =>
    if first current <=? wrapInt32 (last lastEntry + 1)
    then if last lastEntry <? last current
         then optimizeLoop ranges' init
                (mkRange (first lastEntry) (last current))
         else optimizeLoop ranges' init lastEntry
    else optimizeLoop ranges' (init ++ [lastEntry]) current
  end.

(** [func optimizeRanges(ranges []runeRange) []runeRange].  The sort works
    in place, so the sorted slice is empty only when [ranges] is. *)
Definition optimizeRanges (ranges : list runeRange) : list runeRange :=
  match ranges with
  | [] => ranges
  | _ :: _ =>
    match sortSlice ranges with
    | [] => []
    | first0 :: sorted' => optimizeLoop sorted' [] first0
    end
  end.

(** The three tables as [main] computes them from the parsed data. *)
Definition wideRangesOfMain (wideRanges emojiRanges : list runeRange)
  : list runeRange :=
  optimizeRanges (filterHotPaths (mergeRanges wideRanges emojiRanges)).

Definition zeroWidthRangesOfMain : list runeRange :=
  optimizeRanges (filterZeroWidthHotPaths generateZeroWidthRanges).

Definition ambiguousRangesOfMain (ambiguousRanges : list runeRange)
  : list runeRange :=
  optimizeRanges (filterAmbiguousHotPaths ambiguousRanges).

End Generator.

(** An insertion sort by [first]: one function that meets [sortsByFirst],
    used wherever the generator is run on concrete input. *)
Fixpoint insertByFirst (rr : runeRange) (sorted : list runeRange)
  : list runeRange :=
  match sorted with
  | [] => [rr]
  | hd :: tl =>
    if first rr <=? first hd then rr :: sorted
    else hd :: insertByFirst rr tl
  end.

Fixpoint insertionSort (ranges : list runeRange) : list runeRange :=
  match ranges with
  | [] => []
  | rr :: ranges' => insertByFirst rr (insertionSort ranges')
  end.

(** ** Further reference definitions *)

(** No rune of [rs] triggers a composition rule of [StringWidth]: no rune
    is followed by a variation selector U+FE0E or U+FE0F, and no two
    regional indicators are neighbours. *)
Fixpoint noComposition (rs : list rune) : bool :=
  match rs with
  | [] => true
  | r :: rest =>
    match rest with
    | [] => true
    | next :: _ =>
      negb (isRegionalIndicator r && isRegionalIndicator next) &&
      negb (next =? 0xFE0E) && negb (next =? 0xFE0F) &&
      noComposition rest
    end
  end.

(** The sum of [RuneWidthWithOptions] over a list of runes. *)
Fixpoint sumOfRuneWidthsWithOptions
  (wideTableGenerated zeroWidthTableGenerated ambiguousTableGenerated
     : list runeRange)
  (opts : list Option) (rs : list rune) : option Z :=
  match rs with
  | [] => Some 0
  | r :: rest =>
    w <- RuneWidthWithOptions wideTableGenerated zeroWidthTableGenerated
           ambiguousTableGenerated r opts ;;
    total <- sumOfRuneWidthsWithOptions wideTableGenerated
               zeroWidthTableGenerated ambiguousTableGenerated opts rest ;;
    Some (w + total)
  end.

(** * Properties *)

(** ** Binary search *)

Module Search.

(** The loop, one iteration unrolled. *)
Lemma loop_unfold (r : rune) (table : list runeRange) (low high : Z) :
  binarySearchLoop r table low high =
  if Z_le_dec low high then
    if Z_lt_dec (Z.quot (low + high) 2) 0 then None
    else match nth_error table (Z.to_nat (Z.quot (low + high) 2)) with
         | None => None
         | Some rr =>
           if Z_lt_dec r (first rr)
           then binarySearchLoop r table low (Z.quot (low + high) 2 - 1)
           else if Z_lt_dec (last rr) r
                then binarySearchLoop r table (Z.quot (low + high) 2 + 1) high
                else Some true
         end
  else Some false.
Proof.
  rewrite binarySearchLoop_equation_1.
  destruct (Z_le_dec low high); simpl; [| reflexivity].
  destruct (Z_lt_dec (Z.quot (low + high) 2) 0); simpl; [reflexivity |].
  destruct (nth_error table (Z.to_nat (Z.quot (low + high) 2))) as [rr|];
    simpl; [| reflexivity].
  destruct (Z_lt_dec r (first rr)); simpl; [reflexivity |].
  destruct (Z_lt_dec (last rr) r); reflexivity.
Qed.

Lemma mid_bounds (low high : Z) :
  low <= high -> low <= Z.quot (low + high) 2 <= high.
Proof.
  intros H. split.
  - apply Z.quot_le_lower_bound; lia.
  - apply Z.quot_le_upper_bound; lia.
Qed.

(** For any table whatsoever the loop, started inside the table, returns
    without a panic, and a [true] comes from an entry that contains [r]. *)
Lemma loop_sound (r : rune) (table : list runeRange) :
  forall (n : nat) (low high : Z),
    (Z.to_nat (high - low + 1) <= n)%nat ->
    0 <= low -> high < Z.of_nat (length table) ->
    exists b, binarySearchLoop r table low high = Some b /\
              (b = true -> hitIn r table low high).
Proof.
  induction n as [| n IH]; intros low high Hn Hlow Hhigh;
    rewrite loop_unfold; destruct (Z_le_dec low high) as [Hle | Hgt].
  - lia.
  - exists false. split; [reflexivity | discriminate].
  - pose proof (mid_bounds low high Hle) as Hmid.
    set (mid := Z.quot (low + high) 2) in *.
    destruct (Z_lt_dec mid 0) as [Hneg | _]; [lia |].
    destruct (nth_error table (Z.to_nat mid)) as [rr |] eqn:Hnth.
    + destruct (Z_lt_dec r (first rr)) as [Hlt | Hge].
      * destruct (IH low (mid - 1)) as [b [Hb Hhit]]; try lia.
        exists b. split; [exact Hb |].
        intros Hbt. destruct (Hhit Hbt) as [i [rr' [Hi Hrest]]].
        exists i, rr'. split; [lia | exact Hrest].
      * destruct (Z_lt_dec (last rr) r) as [Hlt' | Hge'].
        -- destruct (IH (mid + 1) high) as [b [Hb Hhit]]; try lia.
           exists b. split; [exact Hb |].
           intros Hbt. destruct (Hhit Hbt) as [i [rr' [Hi Hrest]]].
           exists i, rr'. split; [lia | exact Hrest].
        -- exists true. split; [reflexivity |].
           intros _. exists mid, rr. split; [lia |].
           split; [exact Hnth | unfold inRange; lia].
    + apply nth_error_None in Hnth. lia.
  - exists false. split; [reflexivity | discriminate].
Qed.

(** [binarySearch] never panics. *)
Lemma binarySearch_total (r : rune) (table : list runeRange) :
  exists b, binarySearch r table = Some b.
Proof.
  unfold binarySearch.
  destruct (loop_sound r table
              (Z.to_nat (Z.of_nat (length table) - 1 - 0 + 1))
              0 (Z.of_nat (length table) - 1)) as [b [Hb _]]; try lia.
  exists b. exact Hb.
Qed.

(** A [true] answer is always backed by an entry of the table. *)
Lemma binarySearch_true_inTable (r : rune) (table : list runeRange) :
  binarySearch r table = Some true -> inTable r table.
Proof.
  unfold binarySearch. intros H.
  destruct (loop_sound r table
              (Z.to_nat (Z.of_nat (length table) - 1 - 0 + 1))
              0 (Z.of_nat (length table) - 1)) as [b [Hb Hhit]]; try lia.
  rewrite H in Hb. inversion Hb. subst b.
  destruct (Hhit eq_refl) as [i [rr [_ [Hnth Hin]]]].
  exists rr. split; [| exact Hin].
  eapply nth_error_In. exact Hnth.
Qed.

(** A code point that no entry contains is reported absent. *)
Lemma binarySearch_miss (r : rune) (table : list runeRange) :
  ~ inTable r table -> binarySearch r table = Some false.
Proof.
  intros Hnot.
  destruct (binarySearch_total r table) as [[|] Hb]; [| exact Hb].
  exfalso. apply Hnot. apply binarySearch_true_inTable. exact Hb.
Qed.

End Search.

(** ** Binary search on a table that satisfies the invariants *)

Module SortedSearch.

Lemma invariants_chained (table : list runeRange) :
  wellFormed table -> sortedByFirst table -> pairwiseDisjoint table ->
  chained table.
Proof.
  unfold wellFormed, sortedByFirst, pairwiseDisjoint, chained.
  induction table as [| hd tl IH]; intros Hwf Hsorted Hdisj i j a b Hij Ha Hb.
  - destruct i; discriminate.
  - inversion Hwf as [| ? ? _ Hwf']; subst.
    apply StronglySorted_inv in Hsorted. destruct Hsorted as [Hsorted' Hhd].
    inversion Hdisj as [| ? ? Hdhd Hdisj']; subst.
    destruct j as [| j]; [lia |]. simpl in Hb.
    destruct i as [| i]; simpl in Ha.
    + inversion Ha; subst a.
      apply nth_error_In in Hb.
      rewrite Forall_forall in Hhd, Hdhd, Hwf'.
      specialize (Hhd b Hb). specialize (Hdhd b Hb). specialize (Hwf' b Hb).
      unfold overlaps in Hdhd. simpl in *. lia.
    + apply (IH Hwf' Hsorted' Hdisj' i j a b); [lia | exact Ha | exact Hb].
Qed.

Lemma wellFormed_nth (table : list runeRange) (i : nat) (rr : runeRange) :
  wellFormed table -> nth_error table i = Some rr -> first rr <= last rr.
Proof.
  unfold wellFormed. intros Hwf Hnth. rewrite Forall_forall in Hwf.
  apply Hwf. eapply nth_error_In. exact Hnth.
Qed.

(** On a chained, well-formed table the loop finds every hit of its
    window. *)
Lemma loop_complete (r : rune) (table : list runeRange) :
  wellFormed table -> chained table ->
  forall (n : nat) (low high : Z),
    (Z.to_nat (high - low + 1) <= n)%nat ->
    0 <= low -> high < Z.of_nat (length table) ->
    hitIn r table low high ->
    binarySearchLoop r table low high = Some true.
Proof.
  intros Hwf Hch.
  induction n as [| n IH]; intros low high Hn Hlow Hhigh Hhit;
    destruct Hhit as [i [hit [Hi [Hnth Hin]]]]; unfold inRange in Hin;
    [lia |].
  rewrite Search.loop_unfold.
  destruct (Z_le_dec low high) as [Hle | Hgt]; [| lia].
  pose proof (Search.mid_bounds low high Hle) as Hmid.
  set (mid := Z.quot (low + high) 2) in *.
  destruct (Z_lt_dec mid 0) as [Hneg | _]; [lia |].
  destruct (nth_error table (Z.to_nat mid)) as [rr |] eqn:Hrr;
    [| apply nth_error_None in Hrr; lia].
  pose proof (wellFormed_nth table _ rr Hwf Hrr) as Hwfrr.
  pose proof (wellFormed_nth table _ hit Hwf Hnth) as Hwfhit.
  destruct (Z_lt_dec r (first rr)) as [Hlt | Hge].
  - apply IH; try lia.
    exists i, hit. split; [| split; [exact Hnth | exact Hin]].
    destruct (Z_lt_dec i mid) as [Him | Him]; [lia |].
    destruct (Z.eq_dec i mid) as [Heq | Hne].
    + subst i. rewrite Hrr in Hnth. inversion Hnth; subst hit. lia.
    + assert (Hc : last rr < first hit)
        by (apply (Hch (Z.to_nat mid) (Z.to_nat i)); [lia | exact Hrr | exact Hnth]).
      lia.
  - destruct (Z_lt_dec (last rr) r) as [Hlt' | Hge']; [| reflexivity].
    apply IH; try lia.
    exists i, hit. split; [| split; [exact Hnth | exact Hin]].
    destruct (Z_lt_dec mid i) as [Him | Him]; [lia |].
    destruct (Z.eq_dec i mid) as [Heq | Hne].
    + subst i. rewrite Hrr in Hnth. inversion Hnth; subst hit. lia.
    + assert (Hc : last hit < first rr)
        by (apply (Hch (Z.to_nat i) (Z.to_nat mid)); [lia | exact Hnth | exact Hrr]).
      lia.
Qed.

Lemma inTable_hitIn (r : rune) (table : list runeRange) :
  inTable r table ->
  hitIn r table 0 (Z.of_nat (length table) - 1).
Proof.
  intros [rr [Hin Hr]].
  apply In_nth_error in Hin. destruct Hin as [k Hk].
  assert (Hlen : (k < length table)%nat)
    by (apply nth_error_Some; rewrite Hk; discriminate).
  exists (Z.of_nat k), rr. split; [lia |].
  rewrite Nat2Z.id. split; [exact Hk | exact Hr].
Qed.

(** On a table that satisfies the invariants the search finds every code
    point that an entry contains. *)
Lemma binarySearch_hit (r : rune) (table : list runeRange) :
  sortedByFirst table -> pairwiseDisjoint table -> wellFormed table ->
  inTable r table -> binarySearch r table = Some true.
Proof.
  intros Hsorted Hdisj Hwf Hin. unfold binarySearch.
  apply (loop_complete r table Hwf
           (invariants_chained table Hwf Hsorted Hdisj)
           (Z.to_nat (Z.of_nat (length table) - 1 - 0 + 1))); try lia.
  apply inTable_hitIn. exact Hin.
Qed.

End SortedSearch.

(** C9.  On every table that is sorted ascending by [first], pairwise
    disjoint and has [first <= last] in each entry, and for every code point
    [r], [binarySearch] returns (it terminates without a panic) and its
    answer is [true] exactly when some interval of the table contains
    [r]. *)
Theorem binarySearch_correct (table : list runeRange) (r : rune) :
  sortedByFirst table -> pairwiseDisjoint table -> wellFormed table ->
  exists b, binarySearch r table = Some b /\ (b = true <-> inTable r table).
Proof.
  intros Hsorted Hdisj Hwf.
  destruct (Search.binarySearch_total r table) as [b Hb].
  exists b. split; [exact Hb |]. split.
  - intros ->. apply Search.binarySearch_true_inTable. exact Hb.
  - intros Hin.
    rewrite (SortedSearch.binarySearch_hit r table Hsorted Hdisj Hwf Hin)
      in Hb.
    inversion Hb. reflexivity.
Qed.

(** ** The invariants, read by index *)

Lemma ordPairs_nth {A : Type} (R : A -> A -> Prop) (l : list A) :
  ForallOrdPairs R l ->
  forall (i j : nat) (a b : A),
    (i < j)%nat -> nth_error l i = Some a -> nth_error l j = Some b -> R a b.
Proof.
  induction 1 as [| hd tl Hhd _ IH]; intros i j a b Hij Ha Hb.
  - destruct i; discriminate.
  - destruct j as [| j]; [lia |]. simpl in Hb.
    destruct i as [| i]; simpl in Ha.
    + inversion Ha; subst a. rewrite Forall_forall in Hhd.
      apply Hhd. eapply nth_error_In. exact Hb.
    + apply (IH i j); [lia | exact Ha | exact Hb].
Qed.

Lemma sortedByFirst_nth (table : list runeRange) :
  sortedByFirst table ->
  forall (i j : nat) (a b : runeRange),
    (i < j)%nat -> nth_error table i = Some a -> nth_error table j = Some b ->
    first a <= first b.
Proof.
  unfold sortedByFirst.
  induction 1 as [| hd tl _ IH Hhd]; intros i j a b Hij Ha Hb.
  - destruct i; discriminate.
  - destruct j as [| j]; [lia |]. simpl in Hb.
    destruct i as [| i]; simpl in Ha.
    + inversion Ha; subst a. rewrite Forall_forall in Hhd.
      apply Hhd. eapply nth_error_In. exact Hb.
    + apply (IH i j); [lia | exact Ha | exact Hb].
Qed.

(** ** tables.go against the invariants *)

Module TablesGoFacts.
Import TablesGo.

Lemma wideTable_unsorted : ~ sortedByFirst wideTable.
Proof.
  intros H.
  pose proof (sortedByFirst_nth _ H 0%nat 1%nat _ _
                ltac:(lia) eq_refl eq_refl) as Hc.
  simpl in Hc. lia.
Qed.

Lemma wideTable_touching : ~ noneTouching wideTable.
Proof.
  intros H.
  apply (ordPairs_nth _ _ H 13%nat 14%nat _ _ ltac:(lia) eq_refl eq_refl).
  left. reflexivity.
Qed.

Lemma zeroWidthTable_unsorted : ~ sortedByFirst zeroWidthTable.
Proof.
  intros H.
  pose proof (sortedByFirst_nth _ H 2%nat 3%nat _ _
                ltac:(lia) eq_refl eq_refl) as Hc.
  simpl in Hc. lia.
Qed.

Lemma zeroWidthTable_inverted_entry : ~ wellFormed zeroWidthTable.
Proof.
  unfold wellFormed. rewrite Forall_forall. intros H.
  specialize (H (mkRange 0xFE30 0xFE2F)).
  simpl in H. assert (0xFE30 <= 0xFE2F); [| lia].
  apply H. do 26 right. left. reflexivity.
Qed.

Lemma ambiguousTable_touching : ~ noneTouching ambiguousTable.
Proof.
  intros H.
  apply (ordPairs_nth _ _ H 43%nat 44%nat _ _ ltac:(lia) eq_refl eq_refl).
  left. reflexivity.
Qed.

Lemma ambiguousTable_sorted : sortedByFirst ambiguousTable.
Proof.
  unfold sortedByFirst, ambiguousTable.
  repeat (apply SSorted_cons; [| repeat apply Forall_cons;
                                 try apply Forall_nil; simpl; lia]).
  apply SSorted_nil.
Qed.

Lemma ambiguousTable_wellFormed : wellFormed ambiguousTable.
Proof.
  unfold wellFormed, ambiguousTable.
  repeat apply Forall_cons; try apply Forall_nil; simpl; lia.
Qed.

Lemma ambiguousTable_disjoint : pairwiseDisjoint ambiguousTable.
Proof.
  unfold pairwiseDisjoint, ambiguousTable.
  repeat (apply FOP_cons; [repeat apply Forall_cons; try apply Forall_nil;
                           unfold overlaps; simpl; lia |]).
  apply FOP_nil.
Qed.

(** The search the tables were written for misses entries of the unsorted
    tables: U+3000 is listed in [wideTable], U+0591 in [zeroWidthTable]. *)
Lemma unsorted_tables_miss_entries :
  inTable 0x3000 wideTable /\ binarySearch 0x3000 wideTable = Some false /\
  inTable 0x0591 zeroWidthTable /\
  binarySearch 0x0591 zeroWidthTable = Some false.
Proof.
  repeat split.
  - exists (mkRange 0x3000 0x303F).
    split; [left; reflexivity | unfold inRange; simpl; lia].
  - exists (mkRange 0x0591 0x05BD).
    split; [do 3 right; left; reflexivity | unfold inRange; simpl; lia].
Qed.

End TablesGoFacts.

(** C1.  The three tables of tables.go do not satisfy the range-table
    invariants: [wideTable] and [zeroWidthTable] are not sorted by [first],
    [zeroWidthTable] holds the entry [{0xFE30, 0xFE2F}] whose [first]
    exceeds its [last], and [wideTable] and [ambiguousTable] hold touching
    entries; [ambiguousTable] is sorted, well formed and disjoint. *)
Theorem tables_go_break_invariants :
  ~ rangeTableInvariants TablesGo.wideTable /\
  ~ rangeTableInvariants TablesGo.zeroWidthTable /\
  ~ rangeTableInvariants TablesGo.ambiguousTable /\
  (~ sortedByFirst TablesGo.wideTable /\
   ~ noneTouching TablesGo.wideTable /\
   ~ sortedByFirst TablesGo.zeroWidthTable /\
   ~ wellFormed TablesGo.zeroWidthTable /\
   ~ noneTouching TablesGo.ambiguousTable) /\
  (sortedByFirst TablesGo.ambiguousTable /\
   wellFormed TablesGo.ambiguousTable /\
   pairwiseDisjoint TablesGo.ambiguousTable).
Proof.
  pose proof TablesGoFacts.wideTable_unsorted.
  pose proof TablesGoFacts.wideTable_touching.
  pose proof TablesGoFacts.zeroWidthTable_unsorted.
  pose proof TablesGoFacts.zeroWidthTable_inverted_entry.
  pose proof TablesGoFacts.ambiguousTable_touching.
  pose proof TablesGoFacts.ambiguousTable_sorted.
  pose proof TablesGoFacts.ambiguousTable_wellFormed.
  pose proof TablesGoFacts.ambiguousTable_disjoint.
  unfold rangeTableInvariants. tauto.
Qed.

(** ** The hot-path guards of [RuneWidth] *)

Section HotTier.

Variables wideTableGenerated zeroWidthTableGenerated ambiguousTableGenerated
  : list runeRange.
Variable unicodeInMark : rune -> bool.

Local Abbreviation RuneWidth' :=
  (RuneWidth wideTableGenerated zeroWidthTableGenerated
             ambiguousTableGenerated unicodeInMark).
Local Abbreviation binarySearchWidth' :=
  (binarySearchWidth wideTableGenerated zeroWidthTableGenerated
                     ambiguousTableGenerated).

(** When no guard fires, [RuneWidth] is the fallback search. *)
Lemma RuneWidth_fallback (r : rune) :
  hotTier unicodeInMark r = false -> RuneWidth' r = binarySearchWidth' r.
Proof.
  intros H. unfold hotTier in H.
  repeat (apply orb_false_iff in H; destruct H as [H ?]).
  unfold RuneWidth.
  repeat match goal with
         | Hc : ?c = false |- context [if ?c then _ else _] => rewrite Hc
         end.
  reflexivity.
Qed.

(** When a guard fires, the tables are not consulted. *)
Lemma RuneWidth_hot (r : rune) :
  hotTier unicodeInMark r = true ->
  RuneWidth' r = RuneWidth [] [] [] unicodeInMark r /\
  (RuneWidth' r = Some 0 \/ RuneWidth' r = Some 1 \/ RuneWidth' r = Some 2).
Proof.
  unfold hotTier, RuneWidth. intros H.
  repeat (lazymatch goal with
          | |- (if ?c then _ else _) = _ /\ _ => destruct c eqn:?
          end;
          [solve [split;
                  [reflexivity
                  | repeat match goal with
                           | |- context [if ?c' then _ else _] => destruct c'
                           end; tauto]] |]).
  repeat match goal with
         | Hc : ?c = false, Hh : context [?c] |- _ => rewrite Hc in Hh
         end.
  discriminate H.
Qed.

End HotTier.

(** The entries of [ambiguousTable] avoid every range guard of
    [RuneWidth]. *)
Lemma ambiguousTable_avoids_range_guards :
  hotDisjoint (fun _ => false) TablesGo.ambiguousTable.
Proof.
  assert (Hgap : forall r, 0x80 <= r <= 0x1DC \/ 0x2500 <= r <= 0x25FF ->
                           hotTier (fun _ => false) r = false).
  { intros r Hr. unfold hotTier.
    repeat match goal with
           | |- context [?a <=? ?b] => destruct (Z.leb_spec a b); try lia
           | |- context [?a <? ?b] => destruct (Z.ltb_spec a b); try lia
           | |- context [?a =? ?b] => destruct (Z.eqb_spec a b); try lia
           end; reflexivity. }
  intros rr r Hin Hr. apply Hgap. unfold inRange in Hr.
  unfold TablesGo.ambiguousTable in Hin. simpl in Hin.
  repeat (destruct Hin as [<- | Hin]; [simpl in Hr; lia |]).
  contradiction.
Qed.

(** C2.  The tables of tables.go are not disjoint from the hot-path guards
    of [RuneWidth]: [wideTable] lists [{0x2600, 0x26FF}] and
    [{0x2700, 0x27BF}], the two last hot emoji ranges, and [zeroWidthTable]
    lists [{0x200B, 0x200F}], which covers the three zero-width code points
    tested one by one.  Only [ambiguousTable] stays clear of the range
    guards. *)
Theorem tables_go_overlap_hot_tiers (unicodeInMark : rune -> bool) :
  ~ hotDisjoint unicodeInMark TablesGo.wideTable /\
  ~ hotDisjoint unicodeInMark TablesGo.zeroWidthTable /\
  (In (mkRange 0x2600 0x26FF) TablesGo.wideTable /\
   In (mkRange 0x2700 0x27BF) TablesGo.wideTable /\
   In (mkRange 0x200B 0x200F) TablesGo.zeroWidthTable) /\
  (hotTier unicodeInMark 0x2600 = true /\
   hotTier unicodeInMark 0x2700 = true /\
   hotTier unicodeInMark 0x200B = true /\
   hotTier unicodeInMark 0x200C = true /\
   hotTier unicodeInMark 0x200D = true) /\
  hotDisjoint (fun _ => false) TablesGo.ambiguousTable.
Proof.
  assert (Hw1 : In (mkRange 0x2600 0x26FF) TablesGo.wideTable)
    by (do 18 right; left; reflexivity).
  assert (Hw2 : In (mkRange 0x2700 0x27BF) TablesGo.wideTable)
    by (do 19 right; left; reflexivity).
  assert (Hz : In (mkRange 0x200B 0x200F) TablesGo.zeroWidthTable)
    by (do 23 right; left; reflexivity).
  repeat split; try assumption; try reflexivity.
  - intros H. specialize (H _ 0x2600 Hw1).
    unfold inRange in H. simpl in H.
    assert (Hc : hotTier unicodeInMark 0x2600 = false) by (apply H; lia).
    discriminate Hc.
  - intros H. specialize (H _ 0x200C Hz).
    unfold inRange in H. simpl in H.
    assert (Hc : hotTier unicodeInMark 0x200C = false) by (apply H; lia).
    discriminate Hc.
  - exact ambiguousTable_avoids_range_guards.
Qed.

(** ** Strings of ASCII bytes *)

Lemma byteVal_bounds (b : byte) : 0 <= byteVal b < 256.
Proof.
  unfold byteVal. pose proof (Byte.to_N_bounded b) as H.
  change 256 with (Z.of_N 256). lia.
Qed.

Lemma isASCIIOnly_cons (b : byte) (s : list byte) :
  isASCIIOnly (b :: s) = true <-> byteVal b < 0x80 /\ isASCIIOnly s = true.
Proof.
  simpl. destruct (Z.leb_spec 0x80 (byteVal b)); split.
  - discriminate.
  - intros [Hb _]. lia.
  - intros H'. split; [assumption | exact H'].
  - intros [_ H']. exact H'.
Qed.

(** An ASCII-only string decodes to its own bytes. *)
Lemma runes_ascii (s : list byte) :
  isASCIIOnly s = true -> runes s = map byteVal s.
Proof.
  induction s as [| b s IH]; intros H; [reflexivity |].
  apply isASCIIOnly_cons in H. destruct H as [Hb Hs].
  cbn [runes map].
  destruct (Z.ltb_spec (byteVal b) 0x80) as [_ | Hge]; [| lia].
  rewrite (IH Hs). reflexivity.
Qed.

Lemma runes_ascii_below (s : list byte) :
  isASCIIOnly s = true -> Forall (fun r => 0 <= r < 0x80) (runes s).
Proof.
  induction s as [| b s IH]; intros H.
  - constructor.
  - pose proof (runes_ascii _ H) as Hr. rewrite Hr. cbn [map].
    apply isASCIIOnly_cons in H. destruct H as [Hb Hs].
    constructor.
    + pose proof (byteVal_bounds b). lia.
    + rewrite <- (runes_ascii _ Hs). exact (IH Hs).
Qed.

Lemma asciiWidthLoop_acc (s : list byte) (width : Z) :
  asciiWidthLoop s width = width + asciiWidthLoop s 0.
Proof.
  revert width. induction s as [| b s IH]; intros width; simpl; [lia |].
  destruct ((byteVal b <? 0x20) || (byteVal b =? 0x7F)).
  - apply IH.
  - rewrite (IH (width + 1)), (IH 1). lia.
Qed.

(** The fast-path loop counts the printable code units. *)
Lemma asciiWidthLoop_printableCount (s : list byte) :
  asciiWidthLoop s 0 = printableCount s.
Proof.
  unfold printableCount.
  induction s as [| b s IH]; [reflexivity |].
  cbn [asciiWidthLoop filter].
  destruct ((byteVal b <? 0x20) || (byteVal b =? 0x7F)); cbn [negb].
  - exact IH.
  - rewrite asciiWidthLoop_acc, IH. cbn [length]. lia.
Qed.

Section FastPath.

Variables wideTableGenerated zeroWidthTableGenerated ambiguousTableGenerated
  : list runeRange.
Variable unicodeInMark : rune -> bool.

Local Abbreviation RuneWidth' :=
  (RuneWidth wideTableGenerated zeroWidthTableGenerated
             ambiguousTableGenerated unicodeInMark).
Local Abbreviation StringWidth' :=
  (StringWidth wideTableGenerated zeroWidthTableGenerated
               ambiguousTableGenerated unicodeInMark).
Local Abbreviation sumOfRuneWidths' :=
  (sumOfRuneWidths wideTableGenerated zeroWidthTableGenerated
                   ambiguousTableGenerated unicodeInMark).

(** The ASCII tier of [RuneWidth]. *)
Lemma RuneWidth_ascii (r : rune) :
  r < 0x80 ->
  RuneWidth' r = Some (if (r <? 0x20) || (r =? 0x7F) then 0 else 1).
Proof.
  intros H. unfold RuneWidth.
  destruct (Z.ltb_spec r 0x80) as [_ | Hge]; [| lia].
  destruct (r <? 0x20); [reflexivity |].
  destruct (r =? 0x7F); reflexivity.
Qed.

Lemma sumOfRuneWidths_ascii (s : list byte) :
  isASCIIOnly s = true ->
  sumOfRuneWidths' (map byteVal s) = Some (asciiWidthLoop s 0).
Proof.
  induction s as [| b s IH]; intros H; [reflexivity |].
  apply isASCIIOnly_cons in H. destruct H as [Hb Hs].
  cbn [map sumOfRuneWidths asciiWidthLoop].
  rewrite (RuneWidth_ascii _ Hb), (IH Hs). cbn [bind].
  destruct ((byteVal b <? 0x20) || (byteVal b =? 0x7F)).
  - reflexivity.
  - rewrite (asciiWidthLoop_acc s (0 + 1)). reflexivity.
Qed.

(** C8.  On a string all of whose code units are below [0x80],
    [StringWidth] returns the sum of [RuneWidth] over the code points of the
    string. *)
Theorem StringWidth_ascii_is_sum_of_RuneWidth (s : list byte) :
  isASCIIOnly s = true ->
  exists total : Z,
    StringWidth' s = Some total /\ sumOfRuneWidths' (runes s) = Some total.
Proof.
  intros H. exists (asciiWidthLoop s 0). split.
  - unfold StringWidth. rewrite H. reflexivity.
  - rewrite (runes_ascii s H). apply sumOfRuneWidths_ascii. exact H.
Qed.

End FastPath.

(** ** Totality of the classifiers *)

Section Totality.

Variables wideTableGenerated zeroWidthTableGenerated ambiguousTableGenerated
  : list runeRange.
Variable unicodeInMark : rune -> bool.

Local Abbreviation RuneWidth' :=
  (RuneWidth wideTableGenerated zeroWidthTableGenerated
             ambiguousTableGenerated unicodeInMark).
Local Abbreviation binarySearchWidth' :=
  (binarySearchWidth wideTableGenerated zeroWidthTableGenerated
                     ambiguousTableGenerated).
Lemma binarySearchWidth_total (r : rune) :
  binarySearchWidth' r = Some 0 \/ binarySearchWidth' r = Some 1 \/
  binarySearchWidth' r = Some 2.
Proof.
  unfold binarySearchWidth.
  destruct (Search.binarySearch_total r wideTableGenerated) as [[|] ->];
    cbn [bind]; [tauto |].
  destruct (Search.binarySearch_total r zeroWidthTableGenerated) as [[|] ->];
    cbn [bind]; [tauto |].
  destruct (Search.binarySearch_total r ambiguousTableGenerated) as [[|] ->];
    cbn [bind]; tauto.
Qed.

(** [RuneWidth] returns 0, 1 or 2 on every integer and never panics. *)
Lemma RuneWidth_total (r : rune) :
  RuneWidth' r = Some 0 \/ RuneWidth' r = Some 1 \/ RuneWidth' r = Some 2.
Proof.
  destruct (hotTier unicodeInMark r) eqn:Hhot.
  - apply RuneWidth_hot. exact Hhot.
  - rewrite (RuneWidth_fallback _ _ _ _ _ Hhot).
    apply binarySearchWidth_total.
Qed.

End Totality.

Section InternalTotality.

Variables wideTableGenerated zeroWidthTableGenerated ambiguousTableGenerated
  : list runeRange.

Local Abbreviation runeWidthInternal' :=
  (runeWidthInternal wideTableGenerated zeroWidthTableGenerated
                     ambiguousTableGenerated).
Local Abbreviation binarySearchWidthInternal' :=
  (binarySearchWidthInternal wideTableGenerated zeroWidthTableGenerated
                             ambiguousTableGenerated).

Lemma binarySearchWidthInternal_total (r : rune) :
  binarySearchWidthInternal' r = Some (-1) \/
  binarySearchWidthInternal' r = Some 0 \/
  binarySearchWidthInternal' r = Some 1 \/
  binarySearchWidthInternal' r = Some 2.
Proof.
  unfold binarySearchWidthInternal.
  destruct (Search.binarySearch_total r wideTableGenerated) as [[|] ->];
    cbn [bind]; [tauto |].
  destruct (Search.binarySearch_total r zeroWidthTableGenerated) as [[|] ->];
    cbn [bind]; [tauto |].
  destruct (Search.binarySearch_total r ambiguousTableGenerated) as [[|] ->];
    cbn [bind]; tauto.
Qed.

(** [runeWidthInternal] returns -1, 0, 1 or 2 and never panics. *)
Lemma runeWidthInternal_total (r : rune) :
  runeWidthInternal' r = Some (-1) \/ runeWidthInternal' r = Some 0 \/
  runeWidthInternal' r = Some 1 \/ runeWidthInternal' r = Some 2.
Proof.
  unfold runeWidthInternal.
  repeat (lazymatch goal with
          | |- (if ?c then _ else _) = _ \/ _ => destruct c
          end;
          [solve [repeat match goal with
                         | |- context [if ?c' then _ else _] => destruct c'
                         end; tauto] |]).
  apply binarySearchWidthInternal_total.
Qed.

(** When no guard fires, [runeWidthInternal] is the fallback search. *)
Lemma runeWidthInternal_fallback (r : rune) :
  hotTierInternal r = false ->
  runeWidthInternal' r = binarySearchWidthInternal' r.
Proof.
  intros H. unfold hotTierInternal in H.
  repeat (apply orb_false_iff in H; destruct H as [H ?]).
  unfold runeWidthInternal.
  repeat match goal with
         | Hc : ?c = false |- context [if ?c then _ else _] => rewrite Hc
         end.
  reflexivity.
Qed.

(** When a guard fires, the outcome is 0, 1 or 2. *)
Lemma runeWidthInternal_hot (r : rune) :
  hotTierInternal r = true ->
  runeWidthInternal' r = Some 0 \/ runeWidthInternal' r = Some 1 \/
  runeWidthInternal' r = Some 2.
Proof.
  unfold hotTierInternal, runeWidthInternal. intros H.
  repeat (lazymatch goal with
          | |- (if ?c then _ else _) = _ \/ _ => destruct c eqn:?
          end;
          [solve [repeat match goal with
                         | |- context [if ?c' then _ else _] => destruct c'
                         end; tauto] |]).
  repeat match goal with
         | Hc : ?c = false, Hh : context [?c] |- _ => rewrite Hc in Hh
         end.
  discriminate H.
Qed.

(** The ambiguous class, spelled out: no guard of [runeWidthInternal]
    fires, the searches of the wide and of the zero-width table fail, and
    the search of the ambiguous table succeeds. *)
Lemma ambiguousClass_iff (r : rune) :
  ambiguousClass wideTableGenerated zeroWidthTableGenerated
                 ambiguousTableGenerated r <->
  hotTierInternal r = false /\
  binarySearch r wideTableGenerated = Some false /\
  binarySearch r zeroWidthTableGenerated = Some false /\
  binarySearch r ambiguousTableGenerated = Some true.
Proof.
  unfold ambiguousClass. split.
  - intros H. destruct (hotTierInternal r) eqn:Hhot.
    + destruct (runeWidthInternal_hot r Hhot) as [Hw | [Hw | Hw]];
        rewrite Hw in H; discriminate H.
    + rewrite (runeWidthInternal_fallback r Hhot) in H.
      unfold binarySearchWidthInternal in H.
      destruct (Search.binarySearch_total r wideTableGenerated)
        as [[|] Hw]; rewrite Hw in H; cbn [bind] in H; [discriminate H |].
      destruct (Search.binarySearch_total r zeroWidthTableGenerated)
        as [[|] Hz]; rewrite Hz in H; cbn [bind] in H; [discriminate H |].
      destruct (Search.binarySearch_total r ambiguousTableGenerated)
        as [[|] Ha]; rewrite Ha in H; cbn [bind] in H; [| discriminate H].
      repeat split; assumption || reflexivity.
  - intros [Hhot [Hw [Hz Ha]]].
    rewrite (runeWidthInternal_fallback r Hhot).
    unfold binarySearchWidthInternal. rewrite Hw, Hz, Ha. reflexivity.
Qed.

(** Where the ambiguous table satisfies the invariants and is disjoint
    from the guards and from the two tables searched before it, the
    ambiguous class is the set of code points the ambiguous table covers. *)
Lemma ambiguousClass_inTable (r : rune) :
  sortedByFirst ambiguousTableGenerated ->
  pairwiseDisjoint ambiguousTableGenerated ->
  wellFormed ambiguousTableGenerated ->
  (forall x, inTable x ambiguousTableGenerated ->
             hotTierInternal x = false /\
             ~ inTable x wideTableGenerated /\
             ~ inTable x zeroWidthTableGenerated) ->
  (ambiguousClass wideTableGenerated zeroWidthTableGenerated
                  ambiguousTableGenerated r <->
   inTable r ambiguousTableGenerated).
Proof.
  intros Hsorted Hdisj Hwf Hsep. rewrite ambiguousClass_iff. split.
  - intros [_ [_ [_ Ha]]]. apply Search.binarySearch_true_inTable. exact Ha.
  - intros Hin. destruct (Hsep r Hin) as [Hhot [Hw Hz]].
    split; [exact Hhot |].
    split; [apply Search.binarySearch_miss; exact Hw |].
    split; [apply Search.binarySearch_miss; exact Hz |].
    apply SortedSearch.binarySearch_hit; assumption.
Qed.

End InternalTotality.

(** ** The options API *)

Section OptionsFastPath.

Variables wideTableGenerated zeroWidthTableGenerated ambiguousTableGenerated
  : list runeRange.
Variable unicodeInMark : rune -> bool.

Local Abbreviation StringWidth' :=
  (StringWidth wideTableGenerated zeroWidthTableGenerated
               ambiguousTableGenerated unicodeInMark).
Local Abbreviation StringWidthWithOptions' :=
  (StringWidthWithOptions wideTableGenerated zeroWidthTableGenerated
                          ambiguousTableGenerated).

(** C4.  On the one-byte ASCII string "\t" [StringWidthWithOptions] returns
    1 for every list of options, although the string has no printable code
    unit and [StringWidth] returns 0 for it: the fast path returns [len(s)]
    and counts control characters and DELETE. *)
Theorem StringWidthWithOptions_counts_control_characters
  (opts : list Option) :
  isASCIIOnly [x09] = true /\
  printableCount [x09] = 0 /\
  StringWidthWithOptions' [x09] opts = Some 1 /\
  StringWidth' [x09] = Some 0 /\
  StringWidthWithOptions' [x41; x7f] opts = Some 2 /\
  printableCount [x41; x7f] = 1.
Proof.
  repeat split.
Qed.

(** C5.  [StringWidthWithOptions] has no variation-selector rule: for every
    list of options the sequence U+2600 U+FE0E is given width 2 (the
    selector adds 0 to the width 2 of U+2600) where the rule, and
    [StringWidth], give 1; and the sequence U+0061 U+FE0F is given width 1
    where the rule, and [StringWidth], give 2.  On U+2600 U+FE0F the sum of
    parts happens to be the 2 that the rule gives. *)
Theorem StringWidthWithOptions_ignores_variation_selectors
  (opts : list Option) :
  (runes [xe2; x98; x80; xef; xb8; x8e] = [0x2600; 0xFE0E] /\
   StringWidthWithOptions' [xe2; x98; x80; xef; xb8; x8e] opts = Some 2 /\
   StringWidth' [xe2; x98; x80; xef; xb8; x8e] = Some 1) /\
  (runes [x61; xef; xb8; x8f] = [0x61; 0xFE0F] /\
   StringWidthWithOptions' [x61; xef; xb8; x8f] opts = Some 1 /\
   StringWidth' [x61; xef; xb8; x8f] = Some 2) /\
  (runes [xe2; x98; x80; xef; xb8; x8f] = [0x2600; 0xFE0F] /\
   StringWidthWithOptions' [xe2; x98; x80; xef; xb8; x8f] opts = Some 2 /\
   StringWidth' [xe2; x98; x80; xef; xb8; x8f] = Some 2).
Proof.
  repeat split.
Qed.

End OptionsFastPath.

Section AmbiguousToggle.

Variables wideTableGenerated zeroWidthTableGenerated ambiguousTableGenerated
  : list runeRange.

Local Abbreviation StringWidthWithOptions' :=
  (StringWidthWithOptions wideTableGenerated zeroWidthTableGenerated
                          ambiguousTableGenerated).
Local Abbreviation runeWidthInternal' :=
  (runeWidthInternal wideTableGenerated zeroWidthTableGenerated
                     ambiguousTableGenerated).
Local Abbreviation widthWithOptionsLoop' :=
  (widthWithOptionsLoop wideTableGenerated zeroWidthTableGenerated
                        ambiguousTableGenerated).
Local Abbreviation ambiguousClass' :=
  (ambiguousClass wideTableGenerated zeroWidthTableGenerated
                  ambiguousTableGenerated).

(** The fast path of [StringWidthWithOptions] is [len(s)]. *)
Lemma StringWidthWithOptions_ascii (s : list byte) (opts : list Option) :
  isASCIIOnly s = true ->
  StringWidthWithOptions' s opts = Some (Z.of_nat (length s)).
Proof.
  intros H. unfold StringWidthWithOptions. rewrite H. reflexivity.
Qed.

(** The rune loop adds a fixed amount plus the configured ambiguous width
    once per ambiguous-class rune. *)
Lemma widthWithOptionsLoop_shape (rs : list rune) :
  exists base k : Z,
    0 <= k /\
    (k = 0 <-> forall r, In r rs -> ~ ambiguousClass' r) /\
    forall (options : Options) (width : Z),
      widthWithOptionsLoop' options rs width =
      Some (width + base + EastAsianAmbiguous options * k).
Proof.
  induction rs as [| r rest IH].
  - exists 0, 0. split; [lia |]. split.
    + split; [intros _ r [] | reflexivity].
    + intros options width. simpl. f_equal. lia.
  - destruct IH as [base [k [Hk [Hiff Hloop]]]].
    destruct (runeWidthInternal_total wideTableGenerated
                zeroWidthTableGenerated ambiguousTableGenerated r)
      as [Hw | Hw].
    + exists base, (k + 1). split; [lia |]. split.
      * split; [lia |]. intros Hnone. exfalso.
        apply (Hnone r); [left; reflexivity | exact Hw].
      * intros options width. cbn [widthWithOptionsLoop].
        rewrite Hw. cbn [bind]. change (-1 =? -1) with true. cbv iota.
        rewrite Hloop. f_equal. lia.
    + assert (Hne : exists w, runeWidthInternal' r = Some w /\ w <> -1).
      { destruct Hw as [Hw | [Hw | Hw]]; eexists; (split; [exact Hw | lia]). }
      destruct Hne as [w [Hrw Hw']].
      exists (base + w), k. split; [exact Hk |]. split.
      * rewrite Hiff. split.
        -- intros Hnone r' [<- | Hin]; [| apply Hnone; exact Hin].
           unfold ambiguousClass. rewrite Hrw. intros Heq.
           inversion Heq. contradiction.
        -- intros Hnone r' Hin. apply Hnone. right. exact Hin.
      * intros options width. cbn [widthWithOptionsLoop].
        rewrite Hrw. cbn [bind].
        destruct (Z.eqb_spec w (-1)) as [Heq | _]; [contradiction |].
        rewrite Hloop. f_equal. lia.
Qed.

(** [StringWidthWithOptions] returns on every string and every list of
    options. *)
Lemma StringWidthWithOptions_total (s : list byte) (opts : list Option) :
  exists w, StringWidthWithOptions' s opts = Some w.
Proof.
  unfold StringWidthWithOptions.
  destruct (isASCIIOnly s); [eexists; reflexivity |].
  destruct (widthWithOptionsLoop_shape (runes s)) as [base [k [_ [_ Hloop]]]].
  rewrite Hloop. eexists. reflexivity.
Qed.



(** A code point that a guard of [runeWidthInternal] catches has the same
    width under every two lists of options, whatever the ambiguous table
    lists: the table is not consulted for it. *)
Lemma guarded_rune_ignores_options (r : rune) (opts1 opts2 : list Option) :
  hotTierInternal r = true ->
  RuneWidthWithOptions wideTableGenerated zeroWidthTableGenerated
    ambiguousTableGenerated r opts1 =
  RuneWidthWithOptions wideTableGenerated zeroWidthTableGenerated
    ambiguousTableGenerated r opts2.
Proof.
  intros Hhot. unfold RuneWidthWithOptions.
  destruct (runeWidthInternal_hot wideTableGenerated zeroWidthTableGenerated
              ambiguousTableGenerated r Hhot) as [Hw | [Hw | Hw]];
    rewrite Hw; reflexivity.
Qed.


End AmbiguousToggle.

(** ** Regional-indicator pairs and variation selectors in [StringWidth] *)

(** A string whose first rune is not ASCII is not ASCII-only. *)
Lemma runes_head_not_ascii (s : list byte) (a : rune) (rest : list rune) :
  runes s = a :: rest -> 0x80 <= a -> isASCIIOnly s = false.
Proof.
  intros Hr Ha. destruct (isASCIIOnly s) eqn:Hascii; [| reflexivity].
  pose proof (runes_ascii_below s Hascii) as Hall.
  rewrite Hr in Hall. inversion Hall; subst. lia.
Qed.

Section Flags.

Variables wideTableGenerated zeroWidthTableGenerated ambiguousTableGenerated
  : list runeRange.
Variable unicodeInMark : rune -> bool.

Local Abbreviation StringWidth' :=
  (StringWidth wideTableGenerated zeroWidthTableGenerated
               ambiguousTableGenerated unicodeInMark).
Local Abbreviation StringWidthWithOptions' :=
  (StringWidthWithOptions wideTableGenerated zeroWidthTableGenerated
                          ambiguousTableGenerated).
Local Abbreviation RuneWidthWithOptions' :=
  (RuneWidthWithOptions wideTableGenerated zeroWidthTableGenerated
                        ambiguousTableGenerated).
Local Abbreviation runeWidthInternal' :=
  (runeWidthInternal wideTableGenerated zeroWidthTableGenerated
                     ambiguousTableGenerated).
Local Abbreviation binarySearchWidthInternal' :=
  (binarySearchWidthInternal wideTableGenerated zeroWidthTableGenerated
                             ambiguousTableGenerated).

(** No guard of [runeWidthInternal] covers a regional indicator. *)
Lemma runeWidthInternal_regional (r : rune) :
  isRegionalIndicator r = true ->
  runeWidthInternal' r = binarySearchWidthInternal' r.
Proof.
  unfold isRegionalIndicator. intros H.
  apply andb_true_iff in H. destruct H as [Hlo Hhi].
  apply Z.leb_le in Hlo. apply Z.leb_le in Hhi.
  unfold runeWidthInternal.
  repeat match goal with
         | |- context [?a <=? ?b] => destruct (Z.leb_spec a b); try lia
         | |- context [?a <? ?b] => destruct (Z.ltb_spec a b); try lia
         | |- context [?a =? ?b] => destruct (Z.eqb_spec a b); try lia
         end.
  reflexivity.
Qed.

Lemma runeWidthInternal_regional_wide (r : rune) :
  isRegionalIndicator r = true ->
  binarySearch r wideTableGenerated = Some true ->
  runeWidthInternal' r = Some 2.
Proof.
  intros Hr Hw. rewrite (runeWidthInternal_regional r Hr).
  unfold binarySearchWidthInternal. rewrite Hw. reflexivity.
Qed.

(** [StringWidthWithOptions] on a two-rune string is the sum of the two
    runes' own widths. *)
Lemma StringWidthWithOptions_pair (s : list byte) (a b : rune)
  (opts : list Option) :
  runes s = [a; b] -> 0x80 <= a ->
  StringWidthWithOptions' s opts =
    (wa <- RuneWidthWithOptions' a opts ;;
     wb <- RuneWidthWithOptions' b opts ;;
     Some (wa + wb)).
Proof.
  intros Hr Ha. unfold StringWidthWithOptions, RuneWidthWithOptions.
  rewrite (runes_head_not_ascii s a [b] Hr Ha), Hr.
  cbn [widthWithOptionsLoop].
  destruct (runeWidthInternal' a) as [wa |]; cbn [bind]; [| reflexivity].
  destruct (wa =? -1); cbn [bind];
    (destruct (runeWidthInternal' b) as [wb |]; cbn [bind]; [| reflexivity]);
    destruct (wb =? -1); cbn [bind]; reflexivity.
Qed.

(** C6.  For two regional indicators [a] and [b], [StringWidth] of the
    two-rune string is 2.  [StringWidthWithOptions] has no pairing rule: it
    returns the sum of the widths of [a] and of [b] taken one by one, which
    is 4 as soon as the wide table lists the regional indicators. *)
Theorem regional_indicator_pair (s : list byte) (a b : rune)
  (opts : list Option) :
  runes s = [a; b] ->
  isRegionalIndicator a = true -> isRegionalIndicator b = true ->
  StringWidth' s = Some 2 /\
  StringWidthWithOptions' s opts =
    (wa <- RuneWidthWithOptions' a opts ;;
     wb <- RuneWidthWithOptions' b opts ;;
     Some (wa + wb)) /\
  (binarySearch a wideTableGenerated = Some true ->
   binarySearch b wideTableGenerated = Some true ->
   StringWidthWithOptions' s opts = Some 4).
Proof.
  intros Hr Ha Hb.
  assert (Hge : 0x80 <= a).
  { unfold isRegionalIndicator in Ha. apply andb_true_iff in Ha.
    destruct Ha as [Hlo _]. apply Z.leb_le in Hlo. lia. }
  pose proof (StringWidthWithOptions_pair s a b opts Hr Hge) as Hsum.
  split; [| split].
  - unfold StringWidth.
    rewrite (runes_head_not_ascii s a [b] Hr Hge), Hr.
    cbn [stringWidthLoop]. rewrite Ha, Hb. reflexivity.
  - exact Hsum.
  - intros Hwa Hwb. rewrite Hsum. unfold RuneWidthWithOptions.
    rewrite (runeWidthInternal_regional_wide a Ha Hwa),
            (runeWidthInternal_regional_wide b Hb Hwb).
    reflexivity.
Qed.

(** C10.  [StringWidth] is not monotone under appending: the string U+4E16
    has width 2, and appending the single code point U+FE0E to it gives a
    string of width 1. *)
Theorem StringWidth_not_monotone_under_append :
  exists (s c : list byte) (before after : Z),
    runes s = [0x4E16] /\ runes c = [0xFE0E] /\
    runes (s ++ c) = [0x4E16; 0xFE0E] /\
    StringWidth' s = Some before /\
    StringWidth' (s ++ c) = Some after /\
    after < before /\ before = 2 /\ after = 1.
Proof.
  exists [xe4; xb8; x96], [xef; xb8; x8e], 2, 1.
  repeat split.
Qed.

End Flags.

(** ** The string scanners return, and return small numbers *)

(** Decoding yields at most one rune per byte. *)
Lemma runes_length (s : list byte) :
  (length (runes s) <= length s)%nat.
Proof.
  assert (H : forall (n : nat) (s : list byte),
             (length s <= n)%nat -> (length (runes s) <= length s)%nat).
  { clear s. induction n as [| n IH]; intros s Hn.
    - destruct s; [simpl; lia | simpl in Hn; lia].
    - destruct s as [| c0 t0]; [simpl; lia |].
      simpl in Hn. cbn [runes].
      assert (H0 : (length (runes t0) <= length t0)%nat)
        by (apply IH; lia).
      remember (runes t0) as R0 eqn:HR0. clear HR0.
      destruct (byteVal c0 <? 0x80); [simpl; lia |].
      destruct t0 as [| c1 t1]; [simpl in *; lia |].
      assert (H1 : (length (runes t1) <= length t1)%nat)
        by (apply IH; simpl in Hn; lia).
      remember (runes t1) as R1 eqn:HR1. clear HR1.
      destruct (ok2 (byteVal c0) (byteVal c1)); [simpl in *; lia |].
      destruct t1 as [| c2 t2]; [simpl in *; lia |].
      assert (H2 : (length (runes t2) <= length t2)%nat)
        by (apply IH; simpl in Hn; lia).
      remember (runes t2) as R2 eqn:HR2. clear HR2.
      destruct (ok3 (byteVal c0) (byteVal c1) (byteVal c2));
        [simpl in *; lia |].
      destruct t2 as [| c3 t3]; [simpl in *; lia |].
      assert (H3 : (length (runes t3) <= length t3)%nat)
        by (apply IH; simpl in Hn; lia).
      remember (runes t3) as R3 eqn:HR3. clear HR3.
      destruct (ok4 (byteVal c0) (byteVal c1) (byteVal c2) (byteVal c3));
        simpl in *; lia. }
  apply (H (length s)). lia.
Qed.

(** Induction that follows a scan with one rune of lookahead. *)
Lemma lookahead_ind {A : Type} (P : list A -> Prop) :
  P [] -> (forall a, P [a]) ->
  (forall a b l, P l -> P (b :: l) -> P (a :: b :: l)) ->
  forall l, P l.
Proof.
  intros Hnil Hone Hstep l.
  assert (H : P l /\ forall a, P (a :: l)).
  { induction l as [| b l [IHl IHcons]].
    - split; [exact Hnil | exact Hone].
    - split; [apply IHcons |].
      intros a. apply Hstep; [exact IHl | apply IHcons]. }
  exact (proj1 H).
Qed.

Lemma asciiWidthLoop_bounds (s : list byte) :
  0 <= asciiWidthLoop s 0 <= Z.of_nat (length s).
Proof.
  induction s as [| b s IH]; simpl; [lia |].
  destruct ((byteVal b <? 0x20) || (byteVal b =? 0x7F)).
  - lia.
  - rewrite asciiWidthLoop_acc. lia.
Qed.

Section ScannersReturn.

Variables wideTableGenerated zeroWidthTableGenerated ambiguousTableGenerated
  : list runeRange.
Variable unicodeInMark : rune -> bool.

Local Abbreviation RuneWidth' :=
  (RuneWidth wideTableGenerated zeroWidthTableGenerated
             ambiguousTableGenerated unicodeInMark).
Local Abbreviation stringWidthLoop' :=
  (stringWidthLoop wideTableGenerated zeroWidthTableGenerated
                   ambiguousTableGenerated unicodeInMark).
Local Abbreviation StringWidth' :=
  (StringWidth wideTableGenerated zeroWidthTableGenerated
               ambiguousTableGenerated unicodeInMark).

Lemma RuneWidth_bounds (r : rune) :
  exists w, RuneWidth' r = Some w /\ 0 <= w <= 2.
Proof.
  destruct (RuneWidth_total wideTableGenerated zeroWidthTableGenerated
              ambiguousTableGenerated unicodeInMark r) as [H | [H | H]];
    eexists; (split; [exact H | lia]).
Qed.

Lemma stringWidthLoop_bounds (rs : list rune) :
  forall width : Z,
    exists w, stringWidthLoop' rs width = Some w /\
              width <= w <= width + 2 * Z.of_nat (length rs).
Proof.
  induction rs as [| r | r next rest IHrest IHnext] using lookahead_ind;
    intros width.
  - exists width. split; [reflexivity | simpl; lia].
  - cbn [stringWidthLoop].
    destruct (RuneWidth_bounds r) as [w [Hw Hb]]. rewrite Hw. cbn [bind].
    exists (width + w). split; [reflexivity | simpl; lia].
  - cbn [stringWidthLoop].
    destruct (IHrest (width + 2)) as [w2 [Hw2 Hb2]].
    destruct (IHrest (width + 1)) as [w1 [Hw1 Hb1]].
    cbn [length] in *.
    destruct (isRegionalIndicator r && isRegionalIndicator next);
      [exists w2; split; [exact Hw2 | lia] |].
    destruct (next =? 0xFE0E); [exists w1; split; [exact Hw1 | lia] |].
    destruct (next =? 0xFE0F); [exists w2; split; [exact Hw2 | lia] |].
    destruct (RuneWidth_bounds r) as [w [Hw Hb]]. rewrite Hw. cbn [bind].
    destruct (IHnext (width + w)) as [w' [Hw' Hb']].
    exists w'. split; [exact Hw' | cbn [length] in Hb'; lia].
Qed.

(** [StringWidth] returns on every string, and its result lies between 0
    and twice the length of the string. *)
Lemma StringWidth_total (s : list byte) :
  exists w, StringWidth' s = Some w /\ 0 <= w <= 2 * Z.of_nat (length s).
Proof.
  unfold StringWidth. destruct (isASCIIOnly s).
  - exists (asciiWidthLoop s 0). split; [reflexivity |].
    pose proof (asciiWidthLoop_bounds s). lia.
  - destruct (stringWidthLoop_bounds (runes s) 0) as [w [Hw Hb]].
    exists w. split; [exact Hw |].
    pose proof (runes_length s). lia.
Qed.

End ScannersReturn.

(** ** Code points outside the Unicode scalar values *)

Lemma inTable_inTableb (r : rune) (table : list runeRange) :
  inTable r table <-> inTableb r table = true.
Proof.
  unfold inTable, inTableb. rewrite existsb_exists.
  split; intros [rr [Hin Hr]]; exists rr; (split; [exact Hin |]).
  - unfold inRange in Hr. unfold inRangeb.
    apply andb_true_iff. split; apply Z.leb_le; lia.
  - unfold inRangeb in Hr. apply andb_true_iff in Hr.
    destruct Hr as [H1 H2]. apply Z.leb_le in H1. apply Z.leb_le in H2.
    unfold inRange. lia.
Qed.

Section OutsideScalarValues.

Variables wideTableGenerated zeroWidthTableGenerated ambiguousTableGenerated
  : list runeRange.
Variable unicodeInMark : rune -> bool.

Local Abbreviation RuneWidth' :=
  (RuneWidth wideTableGenerated zeroWidthTableGenerated
             ambiguousTableGenerated unicodeInMark).

(** A negative rune is caught by the first two comparisons of the ASCII
    tier. *)
Lemma RuneWidth_negative (r : rune) : r < 0 -> RuneWidth' r = Some 0.
Proof.
  intros H. unfold RuneWidth.
  destruct (Z.ltb_spec r 0x80); [| lia].
  destruct (Z.ltb_spec r 0x20); [reflexivity | lia].
Qed.

(** C3, amended.  A rune above [0x10FFFF] or inside the surrogate range
    [0xD800..0xDFFF], that [unicode.In] does not report as a mark and that
    no entry of the three fallback tables contains, has width 1, and the
    call does not panic. *)
Theorem RuneWidth_above_range_or_surrogate (r : rune) :
  0x10FFFF < r \/ 0xD800 <= r <= 0xDFFF ->
  unicodeInMark r = false ->
  ~ inTable r wideTableGenerated ->
  ~ inTable r zeroWidthTableGenerated ->
  ~ inTable r ambiguousTableGenerated ->
  RuneWidth' r = Some 1.
Proof.
  intros Hr Hmark Hw Hz Ha.
  assert (Hhot : hotTier unicodeInMark r = false).
  { unfold hotTier. rewrite Hmark.
    repeat match goal with
           | |- context [?a <=? ?b] => destruct (Z.leb_spec a b); try lia
           | |- context [?a <? ?b] => destruct (Z.ltb_spec a b); try lia
           | |- context [?a =? ?b] => destruct (Z.eqb_spec a b); try lia
           end; reflexivity. }
  rewrite (RuneWidth_fallback _ _ _ _ _ Hhot). unfold binarySearchWidth.
  rewrite (Search.binarySearch_miss r _ Hw), (Search.binarySearch_miss r _ Hz),
          (Search.binarySearch_miss r _ Ha).
  reflexivity.
Qed.

End OutsideScalarValues.

(** ** The scenarios of the specification, run on the tables of tables.go *)

Module Scenarios.

(** "Hello" *)
Example StringWidth_Hello :
  OnTablesGo.StringWidth [x48; x65; x6c; x6c; x6f] = Some 5.
Proof. reflexivity. Qed.

(** "Hello " followed by U+4E16 U+754C *)
Example StringWidth_Hello_CJK :
  OnTablesGo.StringWidth
    [x48; x65; x6c; x6c; x6f; x20; xe4; xb8; x96; xe7; x95; x8c] = Some 10.
Proof. reflexivity. Qed.

Example StringWidth_empty : OnTablesGo.StringWidth [] = Some 0.
Proof. reflexivity. Qed.

(** U+1F44D *)
Example StringWidth_thumbs_up :
  OnTablesGo.StringWidth [xf0; x9f; x91; x8d] = Some 2.
Proof. reflexivity. Qed.

(** U+00B1 U+00BD under both settings of the ambiguous width *)
Example StringWidthWithOptions_ambiguous_wide :
  OnTablesGo.StringWidthWithOptions [xc2; xb1; xc2; xbd]
    [WithEastAsianAmbiguous EAWide] = Some 4.
Proof. reflexivity. Qed.

Example StringWidthWithOptions_ambiguous_narrow :
  OnTablesGo.StringWidthWithOptions [xc2; xb1; xc2; xbd]
    [WithEastAsianAmbiguous EANarrow] = Some 2.
Proof. reflexivity. Qed.

(** The flag U+1F1FA U+1F1F8 and the two variation-selector sequences on
    U+2600, through [StringWidth]. *)
Example StringWidth_flag :
  OnTablesGo.StringWidth [xf0; x9f; x87; xba; xf0; x9f; x87; xb8] = Some 2.
Proof. reflexivity. Qed.

Example StringWidth_text_selector :
  OnTablesGo.StringWidth [xe2; x98; x80; xef; xb8; x8e] = Some 1.
Proof. reflexivity. Qed.

Example StringWidth_emoji_selector :
  OnTablesGo.StringWidth [xe2; x98; x80; xef; xb8; x8f] = Some 2.
Proof. reflexivity. Qed.

(** Ill-formed UTF-8 (an encoded surrogate, an overlong form, a stray
    byte) decodes to U+FFFD, one rune per offending byte. *)
Example runes_ill_formed :
  runes [xed; xa0; x80; xc0; x80; xff; x41] =
  [RuneError; RuneError; RuneError; RuneError; RuneError; RuneError; 0x41].
Proof. reflexivity. Qed.

End Scenarios.

(** ** The theorems at concrete inputs *)

(** [binarySearch_correct] on [ambiguousTable] of tables.go, which
    satisfies the three invariants, and U+00B1. *)
Lemma binarySearch_correct_witness :
  sortedByFirst TablesGo.ambiguousTable /\
  pairwiseDisjoint TablesGo.ambiguousTable /\
  wellFormed TablesGo.ambiguousTable /\
  exists b, binarySearch 0xB1 TablesGo.ambiguousTable = Some b /\
            (b = true <-> inTable 0xB1 TablesGo.ambiguousTable).
Proof.
  split; [exact TablesGoFacts.ambiguousTable_sorted |].
  split; [exact TablesGoFacts.ambiguousTable_disjoint |].
  split; [exact TablesGoFacts.ambiguousTable_wellFormed |].
  exact (binarySearch_correct TablesGo.ambiguousTable 0xB1
           TablesGoFacts.ambiguousTable_sorted
           TablesGoFacts.ambiguousTable_disjoint
           TablesGoFacts.ambiguousTable_wellFormed).
Defined.

(** [StringWidth_ascii_is_sum_of_RuneWidth] on the string "Hi\t". *)
Lemma StringWidth_ascii_is_sum_of_RuneWidth_witness :
  isASCIIOnly [x48; x69; x09] = true /\
  exists total : Z,
    OnTablesGo.StringWidth [x48; x69; x09] = Some total /\
    sumOfRuneWidths TablesGo.wideTable TablesGo.zeroWidthTable
      TablesGo.ambiguousTable combiningBlocks (runes [x48; x69; x09])
    = Some total.
Proof.
  split; [reflexivity |].
  exact (StringWidth_ascii_is_sum_of_RuneWidth
           TablesGo.wideTable TablesGo.zeroWidthTable TablesGo.ambiguousTable
           combiningBlocks [x48; x69; x09] eq_refl).
Defined.



(** [regional_indicator_pair] on the flag U+1F1FA U+1F1F8, with a wide table
    that lists the regional indicators. *)
Lemma regional_indicator_pair_witness :
  runes [xf0; x9f; x87; xba; xf0; x9f; x87; xb8] = [0x1F1FA; 0x1F1F8] /\
  isRegionalIndicator 0x1F1FA = true /\
  isRegionalIndicator 0x1F1F8 = true /\
  StringWidth regionalIndicatorTable TablesGo.zeroWidthTable
    TablesGo.ambiguousTable combiningBlocks
    [xf0; x9f; x87; xba; xf0; x9f; x87; xb8] = Some 2 /\
  StringWidthWithOptions regionalIndicatorTable TablesGo.zeroWidthTable
    TablesGo.ambiguousTable [xf0; x9f; x87; xba; xf0; x9f; x87; xb8] []
  = Some 4.
Proof.
  split; [reflexivity |]. split; [reflexivity |]. split; [reflexivity |].
  destruct (regional_indicator_pair
              regionalIndicatorTable TablesGo.zeroWidthTable
              TablesGo.ambiguousTable combiningBlocks
              [xf0; x9f; x87; xba; xf0; x9f; x87; xb8] 0x1F1FA 0x1F1F8 []
              eq_refl eq_refl eq_refl) as [Hsw [_ Hfour]].
  split; [exact Hsw | exact (Hfour eq_refl eq_refl)].
Defined.

(** [RuneWidth_above_range_or_surrogate] on [0x110000], the first integer
    above the code space. *)
Lemma RuneWidth_above_range_or_surrogate_witness :
  (0x10FFFF < 0x110000 \/ 0xD800 <= 0x110000 <= 0xDFFF) /\
  combiningBlocks 0x110000 = false /\
  ~ inTable 0x110000 TablesGo.wideTable /\
  ~ inTable 0x110000 TablesGo.zeroWidthTable /\
  ~ inTable 0x110000 TablesGo.ambiguousTable /\
  OnTablesGo.RuneWidth 0x110000 = Some 1.
Proof.
  assert (Hr : 0x10FFFF < 0x110000 \/ 0xD800 <= 0x110000 <= 0xDFFF)
    by (left; reflexivity).
  assert (Hw : ~ inTable 0x110000 TablesGo.wideTable)
    by (rewrite inTable_inTableb; vm_compute; discriminate).
  assert (Hz : ~ inTable 0x110000 TablesGo.zeroWidthTable)
    by (rewrite inTable_inTableb; vm_compute; discriminate).
  assert (Ha : ~ inTable 0x110000 TablesGo.ambiguousTable)
    by (rewrite inTable_inTableb; vm_compute; discriminate).
  repeat (split; [assumption || reflexivity |]).
  exact (RuneWidth_above_range_or_surrogate
           TablesGo.wideTable TablesGo.zeroWidthTable TablesGo.ambiguousTable
           combiningBlocks 0x110000 Hr eq_refl Hw Hz Ha).
Defined.

(** C3 as stated fails on the negative half of the 32-bit range: [-1] is a
    32-bit integer outside [0..0x10FFFF] and [RuneWidth] gives it width 0,
    not 1. *)
Lemma RuneWidth_negative_counterexample :
  isInt32 (-1) /\ ~ (0 <= -1 <= 0x10FFFF) /\
  OnTablesGo.RuneWidth (-1) = Some 0 /\
  ~ (forall r : rune,
       isInt32 r -> ~ (0 <= r <= 0x10FFFF) \/ 0xD800 <= r <= 0xDFFF ->
       OnTablesGo.RuneWidth r = Some 1).
Proof.
  assert (H32 : isInt32 (-1)) by (unfold isInt32; lia).
  assert (Hout : ~ (0 <= -1 <= 0x10FFFF)) by lia.
  split; [exact H32 |]. split; [exact Hout |]. split; [reflexivity |].
  intros Hclaim. specialize (Hclaim (-1) H32 (or_introl Hout)).
  discriminate Hclaim.
Qed.

(** * The table generator *)

(** ** Removing the ranges that overlap a hot path *)

Lemma inTable_app (r : rune) (t1 t2 : list runeRange) :
  inTable r (t1 ++ t2) <-> inTable r t1 \/ inTable r t2.
Proof.
  unfold inTable. split.
  - intros [rr [Hin Hr]]. apply in_app_or in Hin.
    destruct Hin as [Hin | Hin]; [left | right]; exists rr; tauto.
  - intros [[rr [Hin Hr]] | [rr [Hin Hr]]]; exists rr;
      (split; [apply in_or_app; tauto | exact Hr]).
Qed.

Lemma inTable_cons (r : rune) (rr : runeRange) (t : list runeRange) :
  inTable r (rr :: t) <-> inRange r rr \/ inTable r t.
Proof.
  unfold inTable. split.
  - intros [x [[<- | Hin] Hr]]; [left; exact Hr | right; exists x; tauto].
  - intros [Hr | [x [Hin Hr]]];
      [exists rr; split; [left; reflexivity | exact Hr]
      | exists x; split; [right; exact Hin | exact Hr]].
Qed.

Lemma inTable_nil (r : rune) : ~ inTable r [].
Proof. intros [rr [[] _]]. Qed.

Lemma overlapsAny_true (rr : runeRange) (hotPaths : list runeRange) :
  overlapsAny rr hotPaths = true <->
  exists hp, In hp hotPaths /\ rangesOverlap rr hp = true.
Proof.
  induction hotPaths as [| hp hotPaths IH]; simpl.
  - split; [discriminate | intros [hp [[] _]]].
  - destruct (rangesOverlap rr hp) eqn:Hov.
    + split; [intros _; exists hp; tauto | reflexivity].
    + rewrite IH. split.
      * intros [x [Hin Hx]]. exists x. tauto.
      * intros [x [[<- | Hin] Hx]]; [congruence | exists x; tauto].
Qed.

Lemma overlapsAny_false (rr : runeRange) (hotPaths : list runeRange) :
  overlapsAny rr hotPaths = false <->
  forall hp, In hp hotPaths -> rangesOverlap rr hp = false.
Proof.
  split.
  - intros H hp Hin. destruct (rangesOverlap rr hp) eqn:Hov; [| reflexivity].
    assert (Ht : overlapsAny rr hotPaths = true)
      by (apply overlapsAny_true; exists hp; tauto).
    congruence.
  - intros H. destruct (overlapsAny rr hotPaths) eqn:Hany; [| reflexivity].
    apply overlapsAny_true in Hany. destruct Hany as [hp [Hin Hov]].
    rewrite (H hp Hin) in Hov. discriminate.
Qed.

(** Two ranges that share a code point overlap. *)
Lemma rangesOverlap_shared (r : rune) (a b : runeRange) :
  inRange r a -> inRange r b -> rangesOverlap a b = true.
Proof.
  unfold inRange, rangesOverlap. intros Ha Hb.
  apply andb_true_iff. split; apply Z.leb_le; lia.
Qed.

(** The loop appends to [result] the ranges that pass the test, in
    order. *)
Lemma removeOverlappingLoop_filter (ranges hotPaths result : list runeRange) :
  removeOverlappingLoop ranges hotPaths result =
  result ++ filter (fun rr => negb (overlapsAny rr hotPaths)) ranges.
Proof.
  revert result. induction ranges as [| rr ranges IH]; intros result; simpl.
  - rewrite app_nil_r. reflexivity.
  - destruct (overlapsAny rr hotPaths); simpl.
    + apply IH.
    + rewrite IH, <- app_assoc. reflexivity.
Qed.

Lemma removeOverlappingRanges_In (ranges hotPaths : list runeRange)
  (rr : runeRange) :
  In rr (removeOverlappingRanges ranges hotPaths) <->
  In rr ranges /\ overlapsAny rr hotPaths = false.
Proof.
  unfold removeOverlappingRanges. rewrite removeOverlappingLoop_filter.
  simpl. rewrite filter_In, negb_true_iff. tauto.
Qed.

Lemma removeOverlappingRanges_wellFormed (ranges hotPaths : list runeRange) :
  wellFormed ranges -> wellFormed (removeOverlappingRanges ranges hotPaths).
Proof.
  unfold wellFormed. rewrite !Forall_forall. intros H rr Hin.
  apply removeOverlappingRanges_In in Hin. apply H. tauto.
Qed.

Lemma removeOverlappingRanges_belowMaxInt32
  (ranges hotPaths : list runeRange) :
  belowMaxInt32 ranges ->
  belowMaxInt32 (removeOverlappingRanges ranges hotPaths).
Proof.
  unfold belowMaxInt32. rewrite !Forall_forall. intros H rr Hin.
  apply removeOverlappingRanges_In in Hin. apply H. tauto.
Qed.

(** X1.  [removeOverlappingRanges] keeps, in their order, exactly the ranges
    that overlap no hot path, each of them whole.  So no code point of the
    output lies in a hot path; and a code point of the input is dropped as
    soon as every range that holds it touches a hot path, whether or not
    the code point itself is hot. *)
Theorem removeOverlappingRanges_spec (ranges hotPaths : list runeRange) :
  removeOverlappingRanges ranges hotPaths =
    filter (fun rr => negb (overlapsAny rr hotPaths)) ranges /\
  (forall rr, In rr (removeOverlappingRanges ranges hotPaths) <->
              In rr ranges /\
              forall hp, In hp hotPaths -> rangesOverlap rr hp = false) /\
  (forall r, inTable r (removeOverlappingRanges ranges hotPaths) ->
             ~ inTable r hotPaths) /\
  (forall r, inTable r (removeOverlappingRanges ranges hotPaths) <->
             exists rr, In rr ranges /\ inRange r rr /\
                        overlapsAny rr hotPaths = false).
Proof.
  split; [| split; [| split]].
  - unfold removeOverlappingRanges. apply removeOverlappingLoop_filter.
  - intros rr. rewrite removeOverlappingRanges_In, overlapsAny_false.
    tauto.
  - intros r [rr [Hin Hr]] [hp [Hhp Hrhp]].
    apply removeOverlappingRanges_In in Hin. destruct Hin as [_ Hnone].
    rewrite overlapsAny_false in Hnone. specialize (Hnone hp Hhp).
    rewrite (rangesOverlap_shared r rr hp Hr Hrhp) in Hnone.
    discriminate.
  - intros r. unfold inTable. split.
    + intros [rr [Hin Hr]]. apply removeOverlappingRanges_In in Hin.
      exists rr. tauto.
    + intros [rr [Hin [Hr Hnone]]]. exists rr.
      rewrite removeOverlappingRanges_In. tauto.
Qed.

(** ** Sorting and merging *)

Module Optimize.

Local Abbreviation gap := (fun a b : runeRange => last a + 1 < first b).

Lemma wrapInt32_small (z : Z) :
  - 2 ^ 31 <= z < 2 ^ 31 -> wrapInt32 z = z.
Proof.
  intros H. unfold wrapInt32. rewrite Z.mod_small by lia. lia.
Qed.

Lemma ordPairs_app_one {A : Type} (R : A -> A -> Prop) (init : list A)
  (l : A) :
  ForallOrdPairs R init -> Forall (fun x => R x l) init ->
  ForallOrdPairs R (init ++ [l]).
Proof.
  induction 1 as [| a init Ha _ IH]; intros HF; simpl.
  - constructor; constructor.
  - inversion HF; subst. constructor.
    + apply Forall_app. split; [exact Ha | constructor; [assumption |]].
      constructor.
    + apply IH. assumption.
Qed.

Lemma ordPairs_impl_In {A : Type} (R R' : A -> A -> Prop) (l : list A) :
  ForallOrdPairs R l ->
  (forall a b, In a l -> In b l -> R a b -> R' a b) ->
  ForallOrdPairs R' l.
Proof.
  induction 1 as [| a l Ha _ IH]; intros Himpl; constructor.
  - rewrite Forall_forall in *. intros b Hb.
    apply Himpl; [left; reflexivity | right; exact Hb | apply Ha; exact Hb].
  - apply IH. intros x y Hx Hy. apply Himpl; right; assumption.
Qed.

Lemma ordPairs_StronglySorted {A : Type} (R : A -> A -> Prop) (l : list A) :
  ForallOrdPairs R l -> StronglySorted R l.
Proof.
  induction 1; constructor; assumption.
Qed.

(** A well-formed table with a gap between any two entries satisfies the
    four invariants. *)
Lemma gapped_invariants (table : list runeRange) :
  ForallOrdPairs gap table -> wellFormed table -> rangeTableInvariants table.
Proof.
  intros Hgap Hwf. unfold wellFormed in Hwf. rewrite Forall_forall in Hwf.
  unfold rangeTableInvariants, sortedByFirst, pairwiseDisjoint, noneTouching.
  split; [| split; [| split]].
  - apply ordPairs_StronglySorted.
    apply (ordPairs_impl_In _ _ _ Hgap).
    intros a b Ha Hb Hab. specialize (Hwf a Ha). simpl in *. lia.
  - unfold wellFormed. rewrite Forall_forall. exact Hwf.
  - apply (ordPairs_impl_In _ _ _ Hgap).
    intros a b Ha Hb Hab. pose proof (Hwf a Ha). pose proof (Hwf b Hb).
    unfold overlaps. simpl in *. lia.
  - apply (ordPairs_impl_In _ _ _ Hgap).
    intros a b Ha Hb Hab. pose proof (Hwf a Ha). pose proof (Hwf b Hb).
    unfold touches. simpl in *. lia.
Qed.

(** Conversely the four invariants leave a gap between any two entries. *)
Lemma invariants_gapped (table : list runeRange) :
  rangeTableInvariants table -> ForallOrdPairs gap table.
Proof.
  unfold rangeTableInvariants, sortedByFirst, wellFormed, pairwiseDisjoint,
    noneTouching.
  induction table as [| a table IH]; intros [Hs [Hwf [Hd Ht]]];
    [constructor |].
  apply StronglySorted_inv in Hs. destruct Hs as [Hs Hsa].
  inversion Hwf as [| ? ? Hwfa Hwf']; subst.
  inversion Hd as [| ? ? Hda Hd']; subst.
  inversion Ht as [| ? ? Hta Ht']; subst.
  constructor; [| apply IH; tauto].
  rewrite Forall_forall in *. intros b Hb.
  specialize (Hsa b Hb). specialize (Hda b Hb). specialize (Hta b Hb).
  specialize (Hwf' b Hb). unfold overlaps, touches in *. simpl in *. lia.
Qed.

(** The merge loop keeps a gap before [lastEntry] and leaves one behind
    it. *)
Lemma optimizeLoop_gapped (ranges : list runeRange) :
  forall (init : list runeRange) (l : runeRange),
    ForallOrdPairs gap init ->
    Forall (fun x => last x + 1 < first l) init ->
    wellFormed init -> first l <= last l ->
    - 2 ^ 31 <= last l < 2 ^ 31 - 1 ->
    wellFormed ranges -> belowMaxInt32 ranges ->
    sortedByFirst (l :: ranges) ->
    ForallOrdPairs gap (optimizeLoop ranges init l) /\
    wellFormed (optimizeLoop ranges init l).
Proof.
  unfold wellFormed, belowMaxInt32, sortedByFirst.
  induction ranges as [| c ranges IH];
    intros init l Hgap Hbefore Hwfi Hwfl Hbl Hwf Hbelow Hsorted; simpl.
  - split.
    + apply ordPairs_app_one; assumption.
    + apply Forall_app. split; [assumption |].
      constructor; [assumption | constructor].
  - inversion Hwf as [| ? ? Hwfc Hwf']; subst.
    inversion Hbelow as [| ? ? Hbc Hbelow']; subst.
    apply StronglySorted_inv in Hsorted. destruct Hsorted as [Hsc Hall].
    inversion Hall as [| ? ? Hlc Hall']; subst.
    apply StronglySorted_inv in Hsc. destruct Hsc as [Hsr Hcr].
    rewrite wrapInt32_small by lia.
    destruct (Z.leb_spec (first c) (last l + 1)) as [Hmerge | Hnew].
    + destruct (Z.ltb_spec (last l) (last c)) as [Hgrow | Hkeep].
      * apply IH; simpl; try assumption; try lia.
        apply SSorted_cons; assumption.
      * apply IH; try assumption.
        apply SSorted_cons; assumption.
    + apply IH; try assumption; try lia.
      * apply ordPairs_app_one; assumption.
      * apply Forall_app. split.
        -- eapply Forall_impl; [| exact Hbefore]. simpl. intros x Hx. lia.
        -- constructor; [lia | constructor].
      * apply Forall_app. split; [assumption |].
        constructor; [assumption | constructor].
      * apply SSorted_cons; assumption.
Qed.

(** The merge loop neither loses nor invents a code point. *)
Lemma optimizeLoop_coverage (ranges : list runeRange) :
  forall (init : list runeRange) (l : runeRange),
    - 2 ^ 31 <= last l < 2 ^ 31 - 1 ->
    belowMaxInt32 ranges -> sortedByFirst (l :: ranges) ->
    forall r, inTable r (optimizeLoop ranges init l) <->
              inTable r (init ++ l :: ranges).
Proof.
  unfold belowMaxInt32, sortedByFirst.
  induction ranges as [| c ranges IH];
    intros init l Hbl Hbelow Hsorted r; simpl; [reflexivity |].
  inversion Hbelow as [| ? ? Hbc Hbelow']; subst.
  apply StronglySorted_inv in Hsorted. destruct Hsorted as [Hsc Hall].
  inversion Hall as [| ? ? Hlc Hall']; subst.
  apply StronglySorted_inv in Hsc. destruct Hsc as [Hsr Hcr].
  rewrite wrapInt32_small by lia.
  destruct (Z.leb_spec (first c) (last l + 1)) as [Hmerge | Hnew].
  - destruct (Z.ltb_spec (last l) (last c)) as [Hgrow | Hkeep].
    + rewrite IH; simpl; try assumption; try lia;
        [| apply SSorted_cons; assumption].
      rewrite !inTable_app, !inTable_cons. unfold inRange. simpl.
      intuition lia.
    + rewrite IH; try assumption; [| apply SSorted_cons; assumption].
      rewrite !inTable_app, !inTable_cons. unfold inRange.
      intuition lia.
  - rewrite IH; try assumption; [| apply SSorted_cons; assumption].
    rewrite <- app_assoc. reflexivity.
Qed.

(** Every [last] of the output is a [last] of the input. *)
Lemma optimizeLoop_lasts (P : Z -> Prop) (ranges : list runeRange) :
  forall (init : list runeRange) (l : runeRange),
    Forall (fun rr => P (last rr)) init -> P (last l) ->
    Forall (fun rr => P (last rr)) ranges ->
    Forall (fun rr => P (last rr)) (optimizeLoop ranges init l).
Proof.
  induction ranges as [| c ranges IH]; intros init l Hi Hl Hr; simpl.
  - apply Forall_app. split; [assumption | constructor; [assumption |]].
    constructor.
  - inversion Hr; subst.
    destruct (first c <=? wrapInt32 (last l + 1)).
    + destruct (last l <? last c); apply IH; assumption.
    + apply IH; try assumption.
      apply Forall_app. split; [assumption | constructor; [assumption |]].
      constructor.
Qed.

(** On a table that already has its gaps the merge loop changes
    nothing. *)
Lemma optimizeLoop_fixed (ranges : list runeRange) :
  forall (init : list runeRange) (l : runeRange),
    - 2 ^ 31 <= last l < 2 ^ 31 - 1 -> belowMaxInt32 ranges ->
    ForallOrdPairs gap (l :: ranges) ->
    optimizeLoop ranges init l = init ++ l :: ranges.
Proof.
  unfold belowMaxInt32.
  induction ranges as [| c ranges IH]; intros init l Hbl Hbelow Hgap; simpl;
    [reflexivity |].
  inversion Hbelow as [| ? ? Hbc Hbelow']; subst.
  inversion Hgap as [| ? ? Hlc Hgap']; subst.
  inversion Hlc as [| ? ? Hc _]; subst.
  rewrite wrapInt32_small by lia.
  destruct (Z.leb_spec (first c) (last l + 1)) as [Hmerge | _]; [lia |].
  rewrite IH by assumption. rewrite <- app_assoc. reflexivity.
Qed.

(** A list with strictly ascending keys has one sorted arrangement. *)
Lemma sorted_permutation_unique (l1 : list runeRange) :
  forall l2 : list runeRange,
    ForallOrdPairs (fun a b => first a < first b) l1 ->
    sortedByFirst l2 -> Permutation l1 l2 -> l1 = l2.
Proof.
  unfold sortedByFirst.
  induction l1 as [| a t1 IH]; intros l2 Hstrict Hsorted Hperm.
  - apply Permutation_nil in Hperm. subst. reflexivity.
  - destruct l2 as [| b t2];
      [apply Permutation_sym, Permutation_nil in Hperm; discriminate |].
    inversion Hstrict as [| ? ? Ha Hstrict']; subst.
    apply StronglySorted_inv in Hsorted. destruct Hsorted as [Hsorted' Hb].
    rewrite Forall_forall in Ha, Hb.
    assert (Heq : a = b).
    { assert (Hbin : In b (a :: t1))
        by (apply (Permutation_in _ (Permutation_sym Hperm)); left;
            reflexivity).
      assert (Hain : In a (b :: t2))
        by (apply (Permutation_in _ Hperm); left; reflexivity).
      destruct Hbin as [Hab | Hbt]; [exact Hab |].
      destruct Hain as [Hba | Hat]; [symmetry; exact Hba |].
      specialize (Ha b Hbt). specialize (Hb a Hat). lia. }
    subst b. f_equal. apply IH; try assumption.
    eapply Permutation_cons_inv. exact Hperm.
Qed.

Section WithSort.

Variable sortSlice : list runeRange -> list runeRange.
Hypothesis sortSlice_sorts : sortsByFirst sortSlice.

Lemma optimizeRanges_form (ranges : list runeRange) :
  ranges <> [] ->
  exists first0 sorted',
    sortSlice ranges = first0 :: sorted' /\
    optimizeRanges sortSlice ranges = optimizeLoop sorted' [] first0.
Proof.
  intros Hne. destruct ranges as [| rr ranges]; [contradiction |].
  unfold optimizeRanges.
  destruct (sortSlice (rr :: ranges)) as [| first0 sorted'] eqn:Hs.
  - destruct (sortSlice_sorts (rr :: ranges)) as [Hperm _].
    rewrite Hs in Hperm.
    apply Permutation_sym, Permutation_nil in Hperm. discriminate.
  - exists first0, sorted'. split; reflexivity.
Qed.

Lemma optimizeRanges_gapped (ranges : list runeRange) :
  wellFormed ranges -> belowMaxInt32 ranges ->
  ForallOrdPairs gap (optimizeRanges sortSlice ranges) /\
  wellFormed (optimizeRanges sortSlice ranges).
Proof.
  intros Hwf Hbelow.
  destruct ranges as [| rr ranges];
    [split; [constructor | constructor] |].
  destruct (optimizeRanges_form (rr :: ranges)) as [f0 [s' [Hs Heq]]];
    [discriminate |].
  rewrite Heq.
  destruct (sortSlice_sorts (rr :: ranges)) as [Hperm Hsorted].
  rewrite Hs in Hperm, Hsorted.
  unfold wellFormed, belowMaxInt32 in *.
  pose proof (Permutation_Forall Hperm Hwf) as Hwf'.
  pose proof (Permutation_Forall Hperm Hbelow) as Hbelow'.
  inversion Hwf'; subst. inversion Hbelow'; subst.
  apply optimizeLoop_gapped; try assumption; constructor.
Qed.

Lemma optimizeRanges_inTable (ranges : list runeRange) (r : rune) :
  belowMaxInt32 ranges ->
  (inTable r (optimizeRanges sortSlice ranges) <-> inTable r ranges).
Proof.
  intros Hbelow.
  destruct ranges as [| rr ranges]; [reflexivity |].
  destruct (optimizeRanges_form (rr :: ranges)) as [f0 [s' [Hs Heq]]];
    [discriminate |].
  rewrite Heq.
  destruct (sortSlice_sorts (rr :: ranges)) as [Hperm Hsorted].
  rewrite Hs in Hperm, Hsorted.
  unfold belowMaxInt32 in *.
  pose proof (Permutation_Forall Hperm Hbelow) as Hbelow'.
  inversion Hbelow'; subst.
  rewrite optimizeLoop_coverage by assumption. simpl.
  unfold inTable. split; intros [x [Hin Hx]]; exists x; (split; [| exact Hx]).
  - apply (Permutation_in _ (Permutation_sym Hperm)). exact Hin.
  - apply (Permutation_in _ Hperm). exact Hin.
Qed.

Lemma optimizeRanges_belowMaxInt32 (ranges : list runeRange) :
  belowMaxInt32 ranges -> belowMaxInt32 (optimizeRanges sortSlice ranges).
Proof.
  intros Hbelow.
  destruct ranges as [| rr ranges]; [constructor |].
  destruct (optimizeRanges_form (rr :: ranges)) as [f0 [s' [Hs Heq]]];
    [discriminate |].
  rewrite Heq.
  destruct (sortSlice_sorts (rr :: ranges)) as [Hperm _].
  rewrite Hs in Hperm. unfold belowMaxInt32 in *.
  pose proof (Permutation_Forall Hperm Hbelow) as Hbelow'.
  inversion Hbelow'; subst.
  apply (optimizeLoop_lasts (fun z => - 2 ^ 31 <= z < 2 ^ 31 - 1));
    try assumption; constructor.
Qed.

Lemma optimizeRanges_gapped_fixed (table : list runeRange) :
  ForallOrdPairs gap table -> wellFormed table -> belowMaxInt32 table ->
  optimizeRanges sortSlice table = table.
Proof.
  intros Hgap Hwf Hbelow.
  destruct table as [| rr table]; [reflexivity |].
  destruct (optimizeRanges_form (rr :: table)) as [f0 [s' [Hs Heq]]];
    [discriminate |].
  destruct (sortSlice_sorts (rr :: table)) as [Hperm Hsorted].
  assert (Hsame : rr :: table = sortSlice (rr :: table)).
  { apply sorted_permutation_unique; try assumption.
    apply (ordPairs_impl_In _ _ _ Hgap).
    unfold wellFormed in Hwf. rewrite Forall_forall in Hwf.
    intros a b Ha Hb Hab. specialize (Hwf a Ha). simpl in *. lia. }
  rewrite Heq. rewrite Hs in Hsame. inversion Hsame; subst f0 s'.
  unfold belowMaxInt32 in Hbelow. inversion Hbelow; subst.
  rewrite optimizeLoop_fixed by assumption. reflexivity.
Qed.

End WithSort.

(** The insertion sort is one sort that [sortsByFirst] describes. *)
Lemma insertByFirst_perm (rr : runeRange) (sorted : list runeRange) :
  Permutation (rr :: sorted) (insertByFirst rr sorted).
Proof.
  induction sorted as [| hd tl IH]; simpl; [reflexivity |].
  destruct (first rr <=? first hd); [reflexivity |].
  rewrite perm_swap. apply perm_skip. exact IH.
Qed.

Lemma insertByFirst_sorted (rr : runeRange) (sorted : list runeRange) :
  sortedByFirst sorted -> sortedByFirst (insertByFirst rr sorted).
Proof.
  unfold sortedByFirst.
  induction 1 as [| hd tl Htl IH Hhd]; simpl.
  - constructor; constructor.
  - destruct (Z.leb_spec (first rr) (first hd)) as [Hle | Hgt].
    + constructor; [constructor; assumption |].
      constructor; [exact Hle |].
      eapply Forall_impl; [| exact Hhd]. simpl. intros x Hx. lia.
    + constructor; [exact IH |].
      apply (Permutation_Forall (insertByFirst_perm rr tl)).
      constructor; [lia | exact Hhd].
Qed.

Lemma insertionSort_sorts : sortsByFirst insertionSort.
Proof.
  intros ranges. induction ranges as [| rr ranges [IHp IHs]]; simpl.
  - split; [reflexivity | constructor].
  - split.
    + rewrite <- insertByFirst_perm. apply perm_skip. exact IHp.
    + apply insertByFirst_sorted. exact IHs.
Qed.

End Optimize.

(** No code point that survives the filter lies in a hot path. *)
Lemma removeOverlappingRanges_avoids (ranges hotPaths : list runeRange)
  (r : rune) :
  inTable r (removeOverlappingRanges ranges hotPaths) ->
  ~ inTable r hotPaths.
Proof.
  intros [rr [Hin Hr]] [hp [Hhp Hrhp]].
  apply removeOverlappingRanges_In in Hin. destruct Hin as [_ Hnone].
  rewrite overlapsAny_false in Hnone. specialize (Hnone hp Hhp).
  rewrite (rangesOverlap_shared r rr hp Hr Hrhp) in Hnone.
  discriminate.
Qed.

(** X2.  Whatever order its input comes in, [optimizeRanges] returns a table
    that satisfies the four range-table invariants: sorted by [first], every
    entry with [first <= last], no two entries overlapping and no two
    touching.  The input has to be well formed and to hold no [last] equal
    to the largest int32, on which [last.last+1] wraps around. *)
Theorem optimizeRanges_output_invariants
  (sortSlice : list runeRange -> list runeRange) (ranges : list runeRange) :
  sortsByFirst sortSlice -> wellFormed ranges -> belowMaxInt32 ranges ->
  rangeTableInvariants (optimizeRanges sortSlice ranges).
Proof.
  intros Hsort Hwf Hbelow.
  destruct (Optimize.optimizeRanges_gapped sortSlice Hsort ranges Hwf Hbelow)
    as [Hgap Hwf'].
  apply Optimize.gapped_invariants; assumption.
Qed.

(** X3.  [optimizeRanges] neither loses nor invents a code point: its output
    covers exactly the code points that its input covers. *)
Theorem optimizeRanges_preserves_coverage
  (sortSlice : list runeRange -> list runeRange) (ranges : list runeRange)
  (r : rune) :
  sortsByFirst sortSlice -> belowMaxInt32 ranges ->
  (inTable r (optimizeRanges sortSlice ranges) <-> inTable r ranges).
Proof.
  intros Hsort Hbelow.
  apply Optimize.optimizeRanges_inTable; assumption.
Qed.

(** X4.  A table that satisfies the four invariants goes through
    [optimizeRanges] unchanged, and [optimizeRanges] is idempotent on
    well-formed input. *)
Theorem optimizeRanges_fixed_point
  (sortSlice : list runeRange -> list runeRange) (ranges : list runeRange) :
  sortsByFirst sortSlice -> belowMaxInt32 ranges ->
  (rangeTableInvariants ranges -> optimizeRanges sortSlice ranges = ranges) /\
  (wellFormed ranges ->
   optimizeRanges sortSlice (optimizeRanges sortSlice ranges) =
   optimizeRanges sortSlice ranges).
Proof.
  intros Hsort Hbelow. split.
  - intros Hinv.
    apply Optimize.optimizeRanges_gapped_fixed; try assumption.
    + apply Optimize.invariants_gapped. exact Hinv.
    + destruct Hinv as [_ [Hwf _]]. exact Hwf.
  - intros Hwf.
    destruct (Optimize.optimizeRanges_gapped sortSlice Hsort ranges
                Hwf Hbelow) as [Hgap Hwf'].
    apply Optimize.optimizeRanges_gapped_fixed; try assumption.
    apply Optimize.optimizeRanges_belowMaxInt32; assumption.
Qed.

(** The ranges of [generateZeroWidthRanges] that overlap none of the hot
    paths of [filterZeroWidthHotPaths]. *)
Lemma filterZeroWidthHotPaths_generated :
  filterZeroWidthHotPaths generateZeroWidthRanges =
  [ mkRange 0x0080 0x009F; mkRange 0x00AD 0x00AD; mkRange 0x0300 0x036F;
    mkRange 0x0591 0x05BD; mkRange 0x05BF 0x05BF; mkRange 0x05C1 0x05C2;
    mkRange 0x05C4 0x05C5; mkRange 0x05C7 0x05C7; mkRange 0x0610 0x061A;
    mkRange 0x064B 0x065F; mkRange 0x0670 0x0670; mkRange 0x06D6 0x06DC;
    mkRange 0x06DF 0x06E4; mkRange 0x06E7 0x06E8; mkRange 0x06EA 0x06ED;
    mkRange 0x0901 0x0902; mkRange 0x093A 0x093A; mkRange 0x093C 0x093C;
    mkRange 0x0941 0x0948; mkRange 0x094D 0x094D; mkRange 0x0951 0x0957;
    mkRange 0x0962 0x0963; mkRange 0x20D0 0x20FF; mkRange 0xFE20 0xFE2F;
    mkRange 0xFEFF 0xFEFF ].
Proof. reflexivity. Qed.

(** X5.  The zero-width table that [main] builds is the same for every
    sort: the 25 ranges of [generateZeroWidthRanges] that meet no hot path,
    unchanged by [optimizeRanges].  The range [{0x200B, 0x200F}] is dropped
    whole because it holds the hot U+200C and U+200D, so the table covers
    neither U+200B nor U+200E nor U+200F, none of which is a hot path of the
    filter. *)
Theorem zeroWidthRangesOfMain_value
  (sortSlice : list runeRange -> list runeRange) :
  sortsByFirst sortSlice ->
  zeroWidthRangesOfMain sortSlice =
    filterZeroWidthHotPaths generateZeroWidthRanges /\
  length (zeroWidthRangesOfMain sortSlice) = 25%nat /\
  rangeTableInvariants (zeroWidthRangesOfMain sortSlice) /\
  (forall r, 0x200B <= r <= 0x200F ->
             inTable r generateZeroWidthRanges /\
             ~ inTable r (zeroWidthRangesOfMain sortSlice)) /\
  ~ inTable 0x200B zeroWidthHotPaths /\
  ~ inTable 0x200E zeroWidthHotPaths /\
  ~ inTable 0x200F zeroWidthHotPaths.
Proof.
  intros Hsort.
  assert (Hwf : wellFormed (filterZeroWidthHotPaths generateZeroWidthRanges)).
  { rewrite filterZeroWidthHotPaths_generated. unfold wellFormed.
    repeat (apply Forall_cons; [simpl; lia |]). apply Forall_nil. }
  assert (Hbelow :
            belowMaxInt32 (filterZeroWidthHotPaths generateZeroWidthRanges)).
  { rewrite filterZeroWidthHotPaths_generated. unfold belowMaxInt32.
    repeat (apply Forall_cons; [simpl; lia |]). apply Forall_nil. }
  assert (Hgap : ForallOrdPairs (fun a b : runeRange => last a + 1 < first b)
                   (filterZeroWidthHotPaths generateZeroWidthRanges)).
  { rewrite filterZeroWidthHotPaths_generated.
    repeat (apply FOP_cons;
            [repeat (apply Forall_cons; [simpl; lia |]); apply Forall_nil |]).
    apply FOP_nil. }
  assert (Heq : zeroWidthRangesOfMain sortSlice =
                filterZeroWidthHotPaths generateZeroWidthRanges).
  { unfold zeroWidthRangesOfMain.
    apply Optimize.optimizeRanges_gapped_fixed; assumption. }
  split; [exact Heq |]. rewrite Heq.
  split; [rewrite filterZeroWidthHotPaths_generated; reflexivity |].
  split; [apply Optimize.gapped_invariants; assumption |].
  split; [| repeat split; rewrite inTable_inTableb; vm_compute;
            discriminate].
  intros r Hr. split.
  - exists (mkRange 0x200B 0x200F).
    split; [do 24 right; left; reflexivity | exact Hr].
  - rewrite filterZeroWidthHotPaths_generated. intros [rr [Hin Hrr]].
    unfold inRange in Hrr. simpl in Hin.
    repeat (destruct Hin as [<- | Hin]; [simpl in Hrr; lia |]).
    contradiction.
Qed.

Lemma mergeRanges_Forall (P : runeRange -> Prop) (a b : list runeRange) :
  Forall P a -> Forall P b -> Forall P (mergeRanges a b).
Proof.
  intros Ha Hb. unfold mergeRanges. simpl.
  apply Forall_app. split; assumption.
Qed.

(** X6.  The generator and the classifier fit together: every code point
    that the wide table built by [main] covers is found by the binary
    search, and both [RuneWidth] and [runeWidthInternal] give it width 2,
    or width 0 where one of their hard-coded zero-width tests claims it;
    never 1 and never "ambiguous". *)
Theorem generated_wide_table_is_wide
  (sortSlice : list runeRange -> list runeRange)
  (wideRanges emojiRanges zeroWidthTableGenerated ambiguousTableGenerated
     : list runeRange)
  (unicodeInMark : rune -> bool) (r : rune) :
  sortsByFirst sortSlice ->
  wellFormed wideRanges -> wellFormed emojiRanges ->
  belowMaxInt32 wideRanges -> belowMaxInt32 emojiRanges ->
  inTable r (wideRangesOfMain sortSlice wideRanges emojiRanges) ->
  binarySearch r (wideRangesOfMain sortSlice wideRanges emojiRanges)
    = Some true /\
  (RuneWidth (wideRangesOfMain sortSlice wideRanges emojiRanges)
     zeroWidthTableGenerated ambiguousTableGenerated unicodeInMark r = Some 2
   \/
   RuneWidth (wideRangesOfMain sortSlice wideRanges emojiRanges)
     zeroWidthTableGenerated ambiguousTableGenerated unicodeInMark r = Some 0)
  /\
  (runeWidthInternal (wideRangesOfMain sortSlice wideRanges emojiRanges)
     zeroWidthTableGenerated ambiguousTableGenerated r = Some 2
   \/
   runeWidthInternal (wideRangesOfMain sortSlice wideRanges emojiRanges)
     zeroWidthTableGenerated ambiguousTableGenerated r = Some 0).
Proof.
  intros Hsort Hwfw Hwfe Hbw Hbe Hin.
  unfold wideRangesOfMain in *.
  set (merged := mergeRanges wideRanges emojiRanges) in *.
  assert (Hwf : wellFormed (filterHotPaths merged))
    by (apply removeOverlappingRanges_wellFormed;
        apply mergeRanges_Forall; assumption).
  assert (Hbelow : belowMaxInt32 (filterHotPaths merged))
    by (apply removeOverlappingRanges_belowMaxInt32;
        apply mergeRanges_Forall; assumption).
  set (W := optimizeRanges sortSlice (filterHotPaths merged)) in *.
  assert (Hinv : rangeTableInvariants W).
  { destruct (Optimize.optimizeRanges_gapped sortSlice Hsort _ Hwf Hbelow).
    apply Optimize.gapped_invariants; assumption. }
  destruct Hinv as [Hs [Hw [Hd _]]].
  assert (Hhit : binarySearch r W = Some true)
    by (apply SortedSearch.binarySearch_hit; assumption).
  assert (Hcold : ~ inTable r wideHotPaths).
  { apply (removeOverlappingRanges_avoids merged).
    apply (Optimize.optimizeRanges_inTable sortSlice Hsort _ r Hbelow).
    exact Hin. }
  assert (Hascii : r < 0x80 -> r < 0x20).
  { intros Hlt. destruct (Z_lt_dec r 0) as [Hneg | Hpos]; [lia |].
    exfalso. apply Hcold. exists (mkRange 0x0000 0x007F).
    split; [left; reflexivity | unfold inRange; simpl; lia]. }
  split; [exact Hhit |]. split.
  - unfold RuneWidth.
    destruct (Z.ltb_spec r 0x80) as [Hlt | _].
    { destruct (Z.ltb_spec r 0x20); [right; reflexivity |].
      specialize (Hascii Hlt). lia. }
    repeat (lazymatch goal with
            | |- (if ?c then _ else _) = _ \/ _ => destruct c
            end; [solve [left; reflexivity | right; reflexivity] |]).
    unfold binarySearchWidth. rewrite Hhit. left. reflexivity.
  - unfold runeWidthInternal.
    destruct (Z.ltb_spec r 0x80) as [Hlt | _].
    { destruct (Z.ltb_spec r 0x20); [right; reflexivity |].
      specialize (Hascii Hlt). lia. }
    repeat (lazymatch goal with
            | |- (if ?c then _ else _) = _ \/ _ => destruct c
            end; [solve [left; reflexivity | right; reflexivity] |]).
    unfold binarySearchWidthInternal. rewrite Hhit. left. reflexivity.
Qed.

(** * Further properties of the engine *)

(** X7.  On any table whatsoever, sorted or not, [binarySearch] returns
    without indexing outside the table, and it answers [true] only for a
    code point that some entry of the table contains. *)
Theorem binarySearch_any_table (r : rune) (table : list runeRange) :
  exists b, binarySearch r table = Some b /\ (b = true -> inTable r table).
Proof.
  destruct (Search.binarySearch_total r table) as [b Hb].
  exists b. split; [exact Hb |].
  intros ->. apply Search.binarySearch_true_inTable. exact Hb.
Qed.

Section Widths.

Variables wideTableGenerated zeroWidthTableGenerated ambiguousTableGenerated
  : list runeRange.
Variable unicodeInMark : rune -> bool.

Local Abbreviation RuneWidth' :=
  (RuneWidth wideTableGenerated zeroWidthTableGenerated
             ambiguousTableGenerated unicodeInMark).
Local Abbreviation StringWidth' :=
  (StringWidth wideTableGenerated zeroWidthTableGenerated
               ambiguousTableGenerated unicodeInMark).
Local Abbreviation stringWidthLoop' :=
  (stringWidthLoop wideTableGenerated zeroWidthTableGenerated
                   ambiguousTableGenerated unicodeInMark).
Local Abbreviation sumOfRuneWidths' :=
  (sumOfRuneWidths wideTableGenerated zeroWidthTableGenerated
                   ambiguousTableGenerated unicodeInMark).
Local Abbreviation runeWidthInternal' :=
  (runeWidthInternal wideTableGenerated zeroWidthTableGenerated
                     ambiguousTableGenerated).
Local Abbreviation RuneWidthWithOptions' :=
  (RuneWidthWithOptions wideTableGenerated zeroWidthTableGenerated
                        ambiguousTableGenerated).
Local Abbreviation StringWidthWithOptions' :=
  (StringWidthWithOptions wideTableGenerated zeroWidthTableGenerated
                          ambiguousTableGenerated).
Local Abbreviation widthWithOptionsLoop' :=
  (widthWithOptionsLoop wideTableGenerated zeroWidthTableGenerated
                        ambiguousTableGenerated).
Local Abbreviation sumOfRuneWidthsWithOptions' :=
  (sumOfRuneWidthsWithOptions wideTableGenerated zeroWidthTableGenerated
                              ambiguousTableGenerated).

(** X8.  For every rune, valid or not, and whatever the tables hold,
    [RuneWidth] returns 0, 1 or 2 without a panic, and
    [RuneWidthWithOptions] returns 0, 1, 2 or the configured ambiguous
    width. *)
Theorem rune_widths_in_range (r : rune) (opts : list Option) :
  (RuneWidth' r = Some 0 \/ RuneWidth' r = Some 1 \/ RuneWidth' r = Some 2)
  /\
  exists w, RuneWidthWithOptions' r opts = Some w /\
            (w = 0 \/ w = 1 \/ w = 2 \/
             w = EastAsianAmbiguous (buildOptions opts)).
Proof.
  split.
  - apply RuneWidth_total.
  - unfold RuneWidthWithOptions.
    destruct (runeWidthInternal_total wideTableGenerated
                zeroWidthTableGenerated ambiguousTableGenerated r)
      as [H | [H | [H | H]]]; rewrite H; cbn [bind].
    + change (-1 =? -1) with true. cbv iota. eexists. split; [reflexivity |].
      tauto.
    + exists 0. split; [reflexivity | tauto].
    + exists 1. split; [reflexivity | tauto].
    + exists 2. split; [reflexivity | tauto].
Qed.

Lemma widthWithOptionsLoop_bounds (options : Options) (rs : list rune) :
  0 <= EastAsianAmbiguous options <= 2 ->
  forall width : Z,
    exists w, widthWithOptionsLoop' options rs width = Some w /\
              width <= w <= width + 2 * Z.of_nat (length rs).
Proof.
  intros Hea. induction rs as [| r rest IH]; intros width.
  - exists width. split; [reflexivity | simpl; lia].
  - cbn [widthWithOptionsLoop length].
    destruct (runeWidthInternal_total wideTableGenerated
                zeroWidthTableGenerated ambiguousTableGenerated r)
      as [H | [H | [H | H]]]; rewrite H; cbn [bind].
    + change (-1 =? -1) with true. cbv iota.
      destruct (IH (width + EastAsianAmbiguous options)) as [w [Hw Hb]].
      exists w. split; [exact Hw | lia].
    + change (0 =? -1) with false. cbv iota.
      destruct (IH (width + 0)) as [w [Hw Hb]].
      exists w. split; [exact Hw | lia].
    + change (1 =? -1) with false. cbv iota.
      destruct (IH (width + 1)) as [w [Hw Hb]].
      exists w. split; [exact Hw | lia].
    + change (2 =? -1) with false. cbv iota.
      destruct (IH (width + 2)) as [w [Hw Hb]].
      exists w. split; [exact Hw | lia].
Qed.

(** X9.  Both string scanners return on every byte string, well-formed
    UTF-8 or not, and the width they return lies between 0 and twice the
    length of the string in bytes; for [StringWidthWithOptions] the
    ambiguous width has to be one the API offers (between 0 and 2). *)
Theorem string_widths_bounded (s : list byte) (opts : list Option) :
  0 <= EastAsianAmbiguous (buildOptions opts) <= 2 ->
  exists w w' : Z,
    StringWidth' s = Some w /\ StringWidthWithOptions' s opts = Some w' /\
    0 <= w <= 2 * Z.of_nat (length s) /\
    0 <= w' <= 2 * Z.of_nat (length s).
Proof.
  intros Hea.
  destruct (StringWidth_total wideTableGenerated zeroWidthTableGenerated
              ambiguousTableGenerated unicodeInMark s) as [w [Hw Hb]].
  exists w. unfold StringWidthWithOptions.
  destruct (isASCIIOnly s).
  - exists (Z.of_nat (length s)). repeat split; try assumption; lia.
  - destruct (widthWithOptionsLoop_bounds (buildOptions opts) (runes s)
                Hea 0) as [w' [Hw' Hb']].
    exists w'. pose proof (runes_length s).
    repeat split; try assumption; lia.
Qed.

Lemma noComposition_step (r next : rune) (rest : list rune) :
  noComposition (r :: next :: rest) =
  negb (isRegionalIndicator r && isRegionalIndicator next) &&
  negb (next =? 0xFE0E) && negb (next =? 0xFE0F) &&
  noComposition (next :: rest).
Proof. reflexivity. Qed.

(** The lookahead loop at a rune that has a successor. *)
Lemma stringWidthLoop_step (r next : rune) (rest : list rune) (width : Z) :
  stringWidthLoop' (r :: next :: rest) width =
  if isRegionalIndicator r && isRegionalIndicator next
  then stringWidthLoop' rest (width + 2)
  else if next =? 0xFE0E then stringWidthLoop' rest (width + 1)
  else if next =? 0xFE0F then stringWidthLoop' rest (width + 2)
  else w <- RuneWidth' r ;; stringWidthLoop' (next :: rest) (width + w).
Proof. reflexivity. Qed.

(** Where no composition rule applies the lookahead loop adds up the
    widths of the runes. *)
Lemma stringWidthLoop_plain (rs : list rune) :
  noComposition rs = true ->
  forall width : Z,
    stringWidthLoop' rs width =
    (total <- sumOfRuneWidths' rs ;; Some (width + total)).
Proof.
  induction rs as [| r rest IH]; intros Hplain width.
  - simpl. f_equal. lia.
  - destruct rest as [| next rest'].
    + cbn [stringWidthLoop sumOfRuneWidths].
      destruct (RuneWidth' r) as [w |]; cbn [bind]; [| reflexivity].
      f_equal. lia.
    + rewrite noComposition_step in Hplain.
      apply andb_true_iff in Hplain. destruct Hplain as [Hplain Hrest].
      apply andb_true_iff in Hplain. destruct Hplain as [Hplain Hf].
      apply andb_true_iff in Hplain. destruct Hplain as [Hri He].
      apply negb_true_iff in Hri, He, Hf.
      rewrite stringWidthLoop_step, Hri, He, Hf.
      change (sumOfRuneWidths' (r :: next :: rest')) with
        (w <- RuneWidth' r ;;
         total <- sumOfRuneWidths' (next :: rest') ;; Some (w + total)).
      destruct (RuneWidth' r) as [w |]; cbn [bind]; [| reflexivity].
      rewrite (IH Hrest).
      destruct (sumOfRuneWidths' (next :: rest')) as [total |];
        cbn [bind]; [| reflexivity].
      f_equal. lia.
Qed.

(** An ASCII-only string triggers no composition rule. *)
Lemma noComposition_ascii (rs : list rune) :
  Forall (fun r => 0 <= r < 0x80) rs -> noComposition rs = true.
Proof.
  induction 1 as [| r rest Hr Hrest IH]; [reflexivity |].
  destruct rest as [| next rest']; [reflexivity |].
  rewrite noComposition_step.
  apply andb_true_iff. split; [| exact IH].
  inversion Hrest as [| ? ? Hnext _]; subst.
  unfold isRegionalIndicator.
  destruct (Z.leb_spec 0x1F1E6 r); [lia |].
  destruct (Z.eqb_spec next 0xFE0E); [lia |].
  destruct (Z.eqb_spec next 0xFE0F); [lia |].
  reflexivity.
Qed.

(** X10.  On a string in which no rune is followed by a variation selector
    (U+FE0E, U+FE0F) and no two regional indicators are neighbours,
    [StringWidth] is the sum of [RuneWidth] over the runes of the string;
    the ASCII fast path is a special case. *)
Theorem StringWidth_is_rune_sum (s : list byte) :
  noComposition (runes s) = true ->
  StringWidth' s = sumOfRuneWidths' (runes s).
Proof.
  intros Hplain. unfold StringWidth.
  destruct (isASCIIOnly s) eqn:Hascii.
  - rewrite (runes_ascii s Hascii).
    symmetry. apply sumOfRuneWidths_ascii. exact Hascii.
  - rewrite (stringWidthLoop_plain _ Hplain).
    destruct (sumOfRuneWidths' (runes s)) as [total |]; cbn [bind];
      reflexivity.
Qed.

Lemma widthWithOptionsLoop_sum (opts : list Option) (rs : list rune) :
  forall width : Z,
    widthWithOptionsLoop' (buildOptions opts) rs width =
    (total <- sumOfRuneWidthsWithOptions' opts rs ;; Some (width + total)).
Proof.
  induction rs as [| r rest IH]; intros width.
  - simpl. f_equal. lia.
  - cbn [widthWithOptionsLoop sumOfRuneWidthsWithOptions].
    unfold RuneWidthWithOptions.
    destruct (runeWidthInternal' r) as [w |]; cbn [bind]; [| reflexivity].
    destruct (w =? -1); cbn [bind]; rewrite IH;
      destruct (sumOfRuneWidthsWithOptions' opts rest) as [total |];
      cbn [bind]; try reflexivity; f_equal; lia.
Qed.

(** X11.  On a string that is not ASCII-only, [StringWidthWithOptions] is
    the sum of [RuneWidthWithOptions] over the runes of the string: each
    rune counts on its own, whatever its neighbours are. *)
Theorem StringWidthWithOptions_is_rune_sum (s : list byte)
  (opts : list Option) :
  isASCIIOnly s = false ->
  StringWidthWithOptions' s opts =
  sumOfRuneWidthsWithOptions' opts (runes s).
Proof.
  intros Hascii. unfold StringWidthWithOptions. rewrite Hascii.
  rewrite widthWithOptionsLoop_sum.
  destruct (sumOfRuneWidthsWithOptions' opts (runes s)); reflexivity.
Qed.

End Widths.

(** ** The options API against the plain API *)

Section Agreement.

Variables wideTableGenerated zeroWidthTableGenerated ambiguousTableGenerated
  : list runeRange.
Variable unicodeInMark : rune -> bool.

Local Abbreviation RuneWidth' :=
  (RuneWidth wideTableGenerated zeroWidthTableGenerated
             ambiguousTableGenerated unicodeInMark).
Local Abbreviation StringWidth' :=
  (StringWidth wideTableGenerated zeroWidthTableGenerated
               ambiguousTableGenerated unicodeInMark).
Local Abbreviation sumOfRuneWidths' :=
  (sumOfRuneWidths wideTableGenerated zeroWidthTableGenerated
                   ambiguousTableGenerated unicodeInMark).
Local Abbreviation RuneWidthWithOptions' :=
  (RuneWidthWithOptions wideTableGenerated zeroWidthTableGenerated
                        ambiguousTableGenerated).
Local Abbreviation StringWidthWithOptions' :=
  (StringWidthWithOptions wideTableGenerated zeroWidthTableGenerated
                          ambiguousTableGenerated).
Local Abbreviation sumOfRuneWidthsWithOptions' :=
  (sumOfRuneWidthsWithOptions wideTableGenerated zeroWidthTableGenerated
                              ambiguousTableGenerated).

(** The runes on which the guards of [RuneWidth] and of
    [runeWidthInternal] cannot disagree: outside Bopomofo
    (U+3100..U+312F, hot in [RuneWidth] only), other than U+200B (tested in
    [RuneWidth] only), and on which [unicode.In] and the five combining
    blocks say the same. *)
Lemma RuneWidthWithOptions_default (r : rune) :
  ~ (0x3100 <= r <= 0x312F) -> r <> 0x200B ->
  unicodeInMark r = combiningBlocks r ->
  RuneWidthWithOptions' r [] = RuneWidth' r.
Proof.
  intros Hbopomofo Hzwsp Hmark.
  assert (Hkana : (0x3040 <=? r) && (r <=? 0x30FF) =
                  (0x3040 <=? r) && (r <=? 0x312F)).
  { destruct (Z.leb_spec 0x3040 r); destruct (Z.leb_spec r 0x30FF);
      destruct (Z.leb_spec r 0x312F); try reflexivity; lia. }
  unfold RuneWidthWithOptions, runeWidthInternal, RuneWidth.
  rewrite Hkana, Hmark. unfold combiningBlocks.
  destruct (Z.eqb_spec r 0x200B) as [Heq | _]; [contradiction |].
  cbv iota.
  destruct (r <? 0x80).
  { destruct (r <? 0x20); [reflexivity |].
    destruct (r =? 0x7F); reflexivity. }
  do 10 (lazymatch goal with
         | |- _ = (if ?c then _ else _) => destruct c; [reflexivity |]
         end).
  destruct (r =? 0x200D); destruct (r =? 0x200C); try reflexivity.
  cbn [orb]. cbv iota.
  do 3 (lazymatch goal with
        | |- _ = (if ?c then _ else _) => destruct c; [reflexivity |]
        end).
  unfold binarySearchWidthInternal, binarySearchWidth.
  destruct (binarySearch r wideTableGenerated) as [[|] |];
    try reflexivity.
  destruct (binarySearch r zeroWidthTableGenerated) as [[|] |];
    try reflexivity.
  destruct (binarySearch r ambiguousTableGenerated) as [[|] |];
    reflexivity.
Qed.

(** X12.  With no option given, [RuneWidthWithOptions] returns what
    [RuneWidth] returns on every rune outside U+3100..U+312F, other than
    U+200B, and on which [unicode.In] and the five combining blocks of
    [runeWidthInternal] agree; in particular on every rune below [0x0300]
    that [unicode.In] does not report as a mark. *)
Theorem default_options_agree_on_runes (r : rune) :
  ~ (0x3100 <= r <= 0x312F) -> r <> 0x200B ->
  unicodeInMark r = combiningBlocks r ->
  RuneWidthWithOptions' r [] = RuneWidth' r /\
  RuneWidthWithOptions' r [WithEastAsianAmbiguous EANarrow] = RuneWidth' r.
Proof.
  intros Hbopomofo Hzwsp Hmark.
  pose proof (RuneWidthWithOptions_default r Hbopomofo Hzwsp Hmark) as H.
  split; [exact H |].
  rewrite <- H. reflexivity.
Qed.

Lemma sums_agree (rs : list rune) :
  (forall r, In r rs -> RuneWidthWithOptions' r [] = RuneWidth' r) ->
  sumOfRuneWidthsWithOptions' [] rs = sumOfRuneWidths' rs.
Proof.
  induction rs as [| r rest IH]; intros H; [reflexivity |].
  cbn [sumOfRuneWidthsWithOptions sumOfRuneWidths].
  rewrite (H r (or_introl eq_refl)), IH; [reflexivity |].
  intros x Hx. apply H. right. exact Hx.
Qed.

(** X13.  With no option given, [StringWidthWithOptions] returns what
    [StringWidth] returns on every string that triggers no composition
    rule, whose runes are ones on which the two classifiers agree, and
    which, if it is ASCII-only, holds no control character. *)
Theorem default_options_agree_on_strings (s : list byte) :
  noComposition (runes s) = true ->
  (forall r, In r (runes s) ->
             ~ (0x3100 <= r <= 0x312F) /\ r <> 0x200B /\
             unicodeInMark r = combiningBlocks r) ->
  (isASCIIOnly s = true -> printableCount s = Z.of_nat (length s)) ->
  StringWidthWithOptions' s [] = StringWidth' s.
Proof.
  intros Hplain Hrunes Hprintable.
  unfold StringWidthWithOptions, StringWidth.
  destruct (isASCIIOnly s) eqn:Hascii.
  - rewrite asciiWidthLoop_printableCount, (Hprintable eq_refl).
    reflexivity.
  - rewrite widthWithOptionsLoop_sum.
    rewrite (stringWidthLoop_plain wideTableGenerated zeroWidthTableGenerated
               ambiguousTableGenerated unicodeInMark _ Hplain).
    rewrite sums_agree; [reflexivity |].
    intros r Hr. destruct (Hrunes r Hr) as [H1 [H2 H3]].
    apply RuneWidthWithOptions_default; assumption.
Qed.

(** X14.  Of the options only the ambiguous width matters: two option
    lists that resolve to the same [EastAsianAmbiguous] give the same width
    for every rune and every string.  [WithEmojiPresentation] never changes
    a result. *)
Theorem only_ambiguous_width_matters (s : list byte) (r : rune)
  (opts1 opts2 : list Option) :
  EastAsianAmbiguous (buildOptions opts1) =
  EastAsianAmbiguous (buildOptions opts2) ->
  RuneWidthWithOptions' r opts1 = RuneWidthWithOptions' r opts2 /\
  StringWidthWithOptions' s opts1 = StringWidthWithOptions' s opts2 /\
  (forall emoji : bool,
     StringWidthWithOptions' s (opts1 ++ [WithEmojiPresentation emoji]) =
     StringWidthWithOptions' s opts1).
Proof.
  intros Hea.
  assert (Hdep : forall o1 o2 : list Option,
             EastAsianAmbiguous (buildOptions o1) =
             EastAsianAmbiguous (buildOptions o2) ->
             StringWidthWithOptions' s o1 = StringWidthWithOptions' s o2).
  { intros o1 o2 H. unfold StringWidthWithOptions.
    destruct (isASCIIOnly s); [reflexivity |].
    destruct (widthWithOptionsLoop_shape wideTableGenerated
                zeroWidthTableGenerated ambiguousTableGenerated (runes s))
      as [base [k [_ [_ Hloop]]]].
    rewrite !Hloop, H. reflexivity. }
  split; [| split].
  - unfold RuneWidthWithOptions. rewrite Hea. reflexivity.
  - apply Hdep. exact Hea.
  - intros emoji. apply Hdep.
    unfold buildOptions. rewrite fold_left_app. reflexivity.
Qed.

End Agreement.

(** ** The byte scan and the runes *)

(** A string all of whose runes are ASCII is ASCII-only: a byte from
    [0x80] on never decodes to a rune below [0x80]. *)
Lemma runes_ascii_isASCIIOnly (s : list byte) :
  Forall (fun r => 0 <= r < 0x80) (runes s) -> isASCIIOnly s = true.
Proof.
  assert (H : forall (n : nat) (s : list byte),
             (length s <= n)%nat ->
             Forall (fun r => 0 <= r < 0x80) (runes s) ->
             isASCIIOnly s = true).
  { clear s. induction n as [| n IH]; intros s Hn Hall.
    - destruct s; [reflexivity | simpl in Hn; lia].
    - destruct s as [| c0 t0]; [reflexivity |].
      simpl in Hn. cbn [runes] in Hall. cbn [isASCIIOnly].
      pose proof (IH t0 ltac:(lia)) as IH0.
      remember (runes t0) as R0 eqn:HR0. clear HR0.
      destruct (Z.ltb_spec (byteVal c0) 0x80) as [Hlt | Hge].
      + destruct (Z.leb_spec 0x80 (byteVal c0)); [lia |].
        apply IH0. inversion Hall; assumption.
      + exfalso.
        destruct t0 as [| c1 t1];
          [inversion Hall; subst; unfold RuneError in *; lia |].
        remember (runes t1) as R1 eqn:HR1. clear HR1.
        destruct (ok2 (byteVal c0) (byteVal c1)) eqn:H2.
        { unfold ok2 in H2. apply andb_true_iff in H2.
          destruct H2 as [_ H2]. apply Z.ltb_lt in H2.
          inversion Hall; subst. lia. }
        destruct t1 as [| c2 t2];
          [inversion Hall; subst; unfold RuneError in *; lia |].
        remember (runes t2) as R2 eqn:HR2. clear HR2.
        destruct (ok3 (byteVal c0) (byteVal c1) (byteVal c2)) eqn:H3.
        { unfold ok3 in H3. apply andb_true_iff in H3.
          destruct H3 as [H3 _]. apply andb_true_iff in H3.
          destruct H3 as [_ H3]. apply Z.ltb_lt in H3.
          inversion Hall; subst. lia. }
        destruct t2 as [| c3 t3];
          [inversion Hall; subst; unfold RuneError in *; lia |].
        remember (runes t3) as R3 eqn:HR3. clear HR3.
        destruct (ok4 (byteVal c0) (byteVal c1) (byteVal c2) (byteVal c3))
          eqn:H4.
        { unfold ok4 in H4. apply andb_true_iff in H4.
          destruct H4 as [H4 _]. apply andb_true_iff in H4.
          destruct H4 as [_ H4]. apply Z.ltb_lt in H4.
          inversion Hall; subst. lia. }
        inversion Hall; subst; unfold RuneError in *; lia. }
  apply (H (length s)). lia.
Qed.

(** X15.  The byte scan of [isASCIIOnly] decides what it is used for: a
    string is ASCII-only exactly when every rune that [range] yields for it
    is below [0x80], and then the runes are the bytes. *)
Theorem isASCIIOnly_iff_runes_ascii (s : list byte) :
  (isASCIIOnly s = true <-> Forall (fun r => 0 <= r < 0x80) (runes s)) /\
  (isASCIIOnly s = true -> runes s = map byteVal s).
Proof.
  split; [split |].
  - apply runes_ascii_below.
  - apply runes_ascii_isASCIIOnly.
  - apply runes_ascii.
Qed.

Lemma isASCIIOnly_app (s t : list byte) :
  isASCIIOnly (s ++ t) = isASCIIOnly s && isASCIIOnly t.
Proof.
  induction s as [| b s IH]; simpl; [reflexivity |].
  destruct (0x80 <=? byteVal b); [reflexivity | exact IH].
Qed.

Lemma asciiWidthLoop_app (s t : list byte) (width : Z) :
  asciiWidthLoop (s ++ t) width = asciiWidthLoop t (asciiWidthLoop s width).
Proof.
  revert width. induction s as [| b s IH]; intros width; simpl;
    [reflexivity |].
  destruct ((byteVal b <? 0x20) || (byteVal b =? 0x7F)); apply IH.
Qed.

(** X16.  On ASCII-only strings [StringWidth] is additive: the width of a
    concatenation is the sum of the widths.  (It is not in general: see
    [StringWidth_not_monotone_under_append].) *)
Theorem StringWidth_ascii_concat
  (wideTableGenerated zeroWidthTableGenerated ambiguousTableGenerated
     : list runeRange)
  (unicodeInMark : rune -> bool) (s t : list byte) :
  isASCIIOnly s = true -> isASCIIOnly t = true ->
  exists ws wt : Z,
    StringWidth wideTableGenerated zeroWidthTableGenerated
      ambiguousTableGenerated unicodeInMark s = Some ws /\
    StringWidth wideTableGenerated zeroWidthTableGenerated
      ambiguousTableGenerated unicodeInMark t = Some wt /\
    StringWidth wideTableGenerated zeroWidthTableGenerated
      ambiguousTableGenerated unicodeInMark (s ++ t) = Some (ws + wt).
Proof.
  intros Hs Ht. unfold StringWidth.
  rewrite isASCIIOnly_app, Hs, Ht. cbn [andb].
  exists (asciiWidthLoop s 0), (asciiWidthLoop t 0).
  repeat split.
  rewrite asciiWidthLoop_app, asciiWidthLoop_acc. reflexivity.
Qed.

(** * The further theorems at concrete inputs *)

Lemma wideTable_wellFormed : wellFormed TablesGo.wideTable.
Proof.
  unfold wellFormed, TablesGo.wideTable.
  repeat (apply Forall_cons; [simpl; lia |]). apply Forall_nil.
Qed.

Lemma wideTable_belowMaxInt32 : belowMaxInt32 TablesGo.wideTable.
Proof.
  unfold belowMaxInt32, TablesGo.wideTable.
  repeat (apply Forall_cons; [simpl; lia |]). apply Forall_nil.
Qed.

Lemma regionalIndicatorTable_wellFormed : wellFormed regionalIndicatorTable.
Proof.
  unfold wellFormed, regionalIndicatorTable.
  repeat (apply Forall_cons; [simpl; lia |]). apply Forall_nil.
Qed.

Lemma regionalIndicatorTable_belowMaxInt32 :
  belowMaxInt32 regionalIndicatorTable.
Proof.
  unfold belowMaxInt32, regionalIndicatorTable.
  repeat (apply Forall_cons; [simpl; lia |]). apply Forall_nil.
Qed.

(** [optimizeRanges_output_invariants] on [wideTable] of tables.go, which
    is well formed but neither sorted nor merged. *)
Lemma optimizeRanges_output_invariants_witness :
  sortsByFirst insertionSort /\
  wellFormed TablesGo.wideTable /\
  belowMaxInt32 TablesGo.wideTable /\
  rangeTableInvariants (optimizeRanges insertionSort TablesGo.wideTable).
Proof.
  split; [exact Optimize.insertionSort_sorts |].
  split; [exact wideTable_wellFormed |].
  split; [exact wideTable_belowMaxInt32 |].
  exact (optimizeRanges_output_invariants insertionSort TablesGo.wideTable
           Optimize.insertionSort_sorts wideTable_wellFormed
           wideTable_belowMaxInt32).
Defined.

(** [optimizeRanges_preserves_coverage] on [wideTable] and U+3000. *)
Lemma optimizeRanges_preserves_coverage_witness :
  sortsByFirst insertionSort /\
  belowMaxInt32 TablesGo.wideTable /\
  (inTable 0x3000 (optimizeRanges insertionSort TablesGo.wideTable) <->
   inTable 0x3000 TablesGo.wideTable).
Proof.
  split; [exact Optimize.insertionSort_sorts |].
  split; [exact wideTable_belowMaxInt32 |].
  exact (optimizeRanges_preserves_coverage insertionSort TablesGo.wideTable
           0x3000 Optimize.insertionSort_sorts wideTable_belowMaxInt32).
Defined.

(** [optimizeRanges_fixed_point] on a two-entry table. *)
Lemma optimizeRanges_fixed_point_witness :
  sortsByFirst insertionSort /\
  belowMaxInt32 [mkRange 0x80 0x9F; mkRange 0xAD 0xAD] /\
  rangeTableInvariants [mkRange 0x80 0x9F; mkRange 0xAD 0xAD] /\
  optimizeRanges insertionSort [mkRange 0x80 0x9F; mkRange 0xAD 0xAD] =
    [mkRange 0x80 0x9F; mkRange 0xAD 0xAD] /\
  optimizeRanges insertionSort
    (optimizeRanges insertionSort [mkRange 0x80 0x9F; mkRange 0xAD 0xAD]) =
  optimizeRanges insertionSort [mkRange 0x80 0x9F; mkRange 0xAD 0xAD].
Proof.
  assert (Hbelow : belowMaxInt32 [mkRange 0x80 0x9F; mkRange 0xAD 0xAD]).
  { unfold belowMaxInt32.
    repeat (apply Forall_cons; [simpl; lia |]). apply Forall_nil. }
  assert (Hwf : wellFormed [mkRange 0x80 0x9F; mkRange 0xAD 0xAD]).
  { unfold wellFormed.
    repeat (apply Forall_cons; [simpl; lia |]). apply Forall_nil. }
  assert (Hinv : rangeTableInvariants
                   [mkRange 0x80 0x9F; mkRange 0xAD 0xAD]).
  { apply Optimize.gapped_invariants; [| exact Hwf].
    repeat (apply FOP_cons;
            [repeat (apply Forall_cons; [simpl; lia |]); apply Forall_nil |]).
    apply FOP_nil. }
  destruct (optimizeRanges_fixed_point insertionSort
              [mkRange 0x80 0x9F; mkRange 0xAD 0xAD]
              Optimize.insertionSort_sorts Hbelow) as [Hfix Hidem].
  split; [exact Optimize.insertionSort_sorts |].
  split; [exact Hbelow |]. split; [exact Hinv |].
  split; [exact (Hfix Hinv) | exact (Hidem Hwf)].
Defined.

(** [zeroWidthRangesOfMain_value] with the insertion sort. *)
Lemma zeroWidthRangesOfMain_value_witness :
  sortsByFirst insertionSort /\
  zeroWidthRangesOfMain insertionSort =
    filterZeroWidthHotPaths generateZeroWidthRanges /\
  ~ inTable 0x200E (zeroWidthRangesOfMain insertionSort).
Proof.
  destruct (zeroWidthRangesOfMain_value insertionSort
              Optimize.insertionSort_sorts)
    as [Heq [_ [_ [Hdrop _]]]].
  split; [exact Optimize.insertionSort_sorts |].
  split; [exact Heq |].
  exact (proj2 (Hdrop 0x200E ltac:(lia))).
Defined.

(** [generated_wide_table_is_wide] on [wideTable] of tables.go as the
    East Asian Width data, the regional indicators as the emoji data, and
    U+1F1E6. *)
Lemma generated_wide_table_is_wide_witness :
  sortsByFirst insertionSort /\
  wellFormed TablesGo.wideTable /\ wellFormed regionalIndicatorTable /\
  belowMaxInt32 TablesGo.wideTable /\
  belowMaxInt32 regionalIndicatorTable /\
  inTable 0x1F1E6
    (wideRangesOfMain insertionSort TablesGo.wideTable
       regionalIndicatorTable) /\
  binarySearch 0x1F1E6
    (wideRangesOfMain insertionSort TablesGo.wideTable
       regionalIndicatorTable) = Some true /\
  RuneWidth
    (wideRangesOfMain insertionSort TablesGo.wideTable
       regionalIndicatorTable)
    TablesGo.zeroWidthTable TablesGo.ambiguousTable combiningBlocks 0x1F1E6
  = Some 2.
Proof.
  assert (Hin : inTable 0x1F1E6
                  (wideRangesOfMain insertionSort TablesGo.wideTable
                     regionalIndicatorTable))
    by (rewrite inTable_inTableb; vm_compute; reflexivity).
  destruct (generated_wide_table_is_wide insertionSort
              TablesGo.wideTable regionalIndicatorTable
              TablesGo.zeroWidthTable TablesGo.ambiguousTable
              combiningBlocks 0x1F1E6
              Optimize.insertionSort_sorts
              wideTable_wellFormed regionalIndicatorTable_wellFormed
              wideTable_belowMaxInt32 regionalIndicatorTable_belowMaxInt32
              Hin) as [Hhit [Hw _]].
  split; [exact Optimize.insertionSort_sorts |].
  split; [exact wideTable_wellFormed |].
  split; [exact regionalIndicatorTable_wellFormed |].
  split; [exact wideTable_belowMaxInt32 |].
  split; [exact regionalIndicatorTable_belowMaxInt32 |].
  split; [exact Hin |]. split; [exact Hhit |].
  destruct Hw as [Hw | Hw]; [exact Hw |].
  vm_compute in Hw. discriminate Hw.
Defined.

(** [string_widths_bounded] on "Hello " followed by U+4E16 U+754C. *)
Lemma string_widths_bounded_witness :
  0 <= EastAsianAmbiguous (buildOptions [WithEastAsianAmbiguous EAWide])
    <= 2 /\
  exists w w' : Z,
    OnTablesGo.StringWidth
      [x48; x65; x6c; x6c; x6f; x20; xe4; xb8; x96; xe7; x95; x8c]
      = Some w /\
    OnTablesGo.StringWidthWithOptions
      [x48; x65; x6c; x6c; x6f; x20; xe4; xb8; x96; xe7; x95; x8c]
      [WithEastAsianAmbiguous EAWide] = Some w' /\
    0 <= w <= 2 * Z.of_nat 12 /\ 0 <= w' <= 2 * Z.of_nat 12.
Proof.
  assert (Hea : 0 <= EastAsianAmbiguous
                       (buildOptions [WithEastAsianAmbiguous EAWide]) <= 2)
    by (simpl; unfold EAWide; lia).
  split; [exact Hea |].
  exact (string_widths_bounded
           TablesGo.wideTable TablesGo.zeroWidthTable TablesGo.ambiguousTable
           combiningBlocks
           [x48; x65; x6c; x6c; x6f; x20; xe4; xb8; x96; xe7; x95; x8c]
           [WithEastAsianAmbiguous EAWide] Hea).
Defined.

(** [StringWidth_is_rune_sum] on "Hello " followed by U+4E16 U+754C. *)
Lemma StringWidth_is_rune_sum_witness :
  noComposition
    (runes [x48; x65; x6c; x6c; x6f; x20; xe4; xb8; x96; xe7; x95; x8c])
    = true /\
  OnTablesGo.StringWidth
    [x48; x65; x6c; x6c; x6f; x20; xe4; xb8; x96; xe7; x95; x8c] =
  sumOfRuneWidths TablesGo.wideTable TablesGo.zeroWidthTable
    TablesGo.ambiguousTable combiningBlocks
    (runes [x48; x65; x6c; x6c; x6f; x20; xe4; xb8; x96; xe7; x95; x8c]).
Proof.
  split; [reflexivity |].
  exact (StringWidth_is_rune_sum
           TablesGo.wideTable TablesGo.zeroWidthTable TablesGo.ambiguousTable
           combiningBlocks
           [x48; x65; x6c; x6c; x6f; x20; xe4; xb8; x96; xe7; x95; x8c]
           eq_refl).
Defined.

(** [StringWidthWithOptions_is_rune_sum] on U+00B1 U+00BD. *)
Lemma StringWidthWithOptions_is_rune_sum_witness :
  isASCIIOnly [xc2; xb1; xc2; xbd] = false /\
  OnTablesGo.StringWidthWithOptions [xc2; xb1; xc2; xbd]
    [WithEastAsianAmbiguous EAWide] =
  sumOfRuneWidthsWithOptions TablesGo.wideTable TablesGo.zeroWidthTable
    TablesGo.ambiguousTable [WithEastAsianAmbiguous EAWide]
    (runes [xc2; xb1; xc2; xbd]).
Proof.
  split; [reflexivity |].
  exact (StringWidthWithOptions_is_rune_sum
           TablesGo.wideTable TablesGo.zeroWidthTable TablesGo.ambiguousTable
           [xc2; xb1; xc2; xbd] [WithEastAsianAmbiguous EAWide] eq_refl).
Defined.

(** [default_options_agree_on_runes] on U+00B1. *)
Lemma default_options_agree_on_runes_witness :
  ~ (0x3100 <= 0xB1 <= 0x312F) /\ 0xB1 <> 0x200B /\
  combiningBlocks 0xB1 = combiningBlocks 0xB1 /\
  RuneWidthWithOptions TablesGo.wideTable TablesGo.zeroWidthTable
    TablesGo.ambiguousTable 0xB1 [] = OnTablesGo.RuneWidth 0xB1.
Proof.
  assert (H1 : ~ (0x3100 <= 0xB1 <= 0x312F)) by lia.
  assert (H2 : 0xB1 <> 0x200B) by lia.
  split; [exact H1 |]. split; [exact H2 |]. split; [reflexivity |].
  exact (proj1 (default_options_agree_on_runes
                  TablesGo.wideTable TablesGo.zeroWidthTable
                  TablesGo.ambiguousTable combiningBlocks 0xB1
                  H1 H2 eq_refl)).
Defined.

(** [default_options_agree_on_strings] on "Hello " followed by U+00B1. *)
Lemma default_options_agree_on_strings_witness :
  noComposition (runes [x48; x65; x6c; x6c; x6f; x20; xc2; xb1]) = true /\
  (forall r, In r (runes [x48; x65; x6c; x6c; x6f; x20; xc2; xb1]) ->
             ~ (0x3100 <= r <= 0x312F) /\ r <> 0x200B /\
             combiningBlocks r = combiningBlocks r) /\
  (isASCIIOnly [x48; x65; x6c; x6c; x6f; x20; xc2; xb1] = true ->
   printableCount [x48; x65; x6c; x6c; x6f; x20; xc2; xb1] =
   Z.of_nat (length [x48; x65; x6c; x6c; x6f; x20; xc2; xb1])) /\
  OnTablesGo.StringWidthWithOptions
    [x48; x65; x6c; x6c; x6f; x20; xc2; xb1] [] =
  OnTablesGo.StringWidth [x48; x65; x6c; x6c; x6f; x20; xc2; xb1].
Proof.
  assert (Hrunes :
            forall r, In r (runes [x48; x65; x6c; x6c; x6f; x20; xc2; xb1]) ->
                      ~ (0x3100 <= r <= 0x312F) /\ r <> 0x200B /\
                      combiningBlocks r = combiningBlocks r).
  { intros r Hr. vm_compute in Hr.
    repeat (destruct Hr as [<- | Hr];
            [split; [lia | split; [lia | reflexivity]] |]).
    contradiction. }
  assert (Hprintable :
            isASCIIOnly [x48; x65; x6c; x6c; x6f; x20; xc2; xb1] = true ->
            printableCount [x48; x65; x6c; x6c; x6f; x20; xc2; xb1] =
            Z.of_nat (length [x48; x65; x6c; x6c; x6f; x20; xc2; xb1])).
  { intros H. vm_compute in H. discriminate H. }
  split; [reflexivity |]. split; [exact Hrunes |].
  split; [exact Hprintable |].
  exact (default_options_agree_on_strings
           TablesGo.wideTable TablesGo.zeroWidthTable TablesGo.ambiguousTable
           combiningBlocks [x48; x65; x6c; x6c; x6f; x20; xc2; xb1]
           eq_refl Hrunes Hprintable).
Defined.

(** [only_ambiguous_width_matters] on U+1F600 with
    [WithEmojiPresentation(false)] against no option at all. *)
Lemma only_ambiguous_width_matters_witness :
  EastAsianAmbiguous (buildOptions [WithEmojiPresentation false]) =
  EastAsianAmbiguous (buildOptions []) /\
  OnTablesGo.StringWidthWithOptions [xf0; x9f; x98; x80]
    [WithEmojiPresentation false] =
  OnTablesGo.StringWidthWithOptions [xf0; x9f; x98; x80] [] /\
  OnTablesGo.StringWidthWithOptions [xf0; x9f; x98; x80]
    [WithEmojiPresentation false] = Some 2.
Proof.
  split; [reflexivity |].
  split; [| reflexivity].
  exact (proj1 (proj2 (only_ambiguous_width_matters
                         TablesGo.wideTable TablesGo.zeroWidthTable
                         TablesGo.ambiguousTable
                         [xf0; x9f; x98; x80] 0x1F600
                         [WithEmojiPresentation false] [] eq_refl))).
Defined.

(** [StringWidth_ascii_concat] on "Hi" and "\t!". *)
Lemma StringWidth_ascii_concat_witness :
  isASCIIOnly [x48; x69] = true /\ isASCIIOnly [x09; x21] = true /\
  exists ws wt : Z,
    OnTablesGo.StringWidth [x48; x69] = Some ws /\
    OnTablesGo.StringWidth [x09; x21] = Some wt /\
    OnTablesGo.StringWidth ([x48; x69] ++ [x09; x21]) = Some (ws + wt).
Proof.
  split; [reflexivity |]. split; [reflexivity |].
  exact (StringWidth_ascii_concat
           TablesGo.wideTable TablesGo.zeroWidthTable TablesGo.ambiguousTable
           combiningBlocks [x48; x69] [x09; x21] eq_refl eq_refl).
Defined.

(** * Lookup in a generated table, and smaller facts *)

(** X17.  For two well-formed ranges [rangesOverlap] is symmetric and holds
    exactly when the ranges share a code point. *)
Theorem rangesOverlap_spec (a b : runeRange) :
  first a <= last a -> first b <= last b ->
  rangesOverlap a b = rangesOverlap b a /\
  (rangesOverlap a b = true <-> exists r, inRange r a /\ inRange r b).
Proof.
  intros Ha Hb. unfold rangesOverlap, inRange. split.
  - apply andb_comm.
  - rewrite andb_true_iff, !Z.leb_le. split.
    + intros [H1 H2]. exists (Z.max (first a) (first b)). lia.
    + intros [r Hr]. lia.
Qed.

Lemma rangesOverlap_spec_witness :
  first (mkRange 0x200B 0x200F) <= last (mkRange 0x200B 0x200F) /\
  first (mkRange 0x200D 0x200D) <= last (mkRange 0x200D 0x200D) /\
  rangesOverlap (mkRange 0x200B 0x200F) (mkRange 0x200D 0x200D) =
  rangesOverlap (mkRange 0x200D 0x200D) (mkRange 0x200B 0x200F) /\
  (rangesOverlap (mkRange 0x200B 0x200F) (mkRange 0x200D 0x200D) = true <->
   exists r, inRange r (mkRange 0x200B 0x200F) /\
             inRange r (mkRange 0x200D 0x200D)).
Proof.
  assert (Ha : first (mkRange 0x200B 0x200F) <= last (mkRange 0x200B 0x200F))
    by (simpl; lia).
  assert (Hb : first (mkRange 0x200D 0x200D) <= last (mkRange 0x200D 0x200D))
    by (simpl; lia).
  split; [exact Ha |]. split; [exact Hb |].
  exact (rangesOverlap_spec (mkRange 0x200B 0x200F) (mkRange 0x200D 0x200D)
           Ha Hb).
Defined.

(** X18.  Options are applied in order and each constructor writes one
    field: the last [WithEastAsianAmbiguous] decides the ambiguous width
    whatever precedes it, [WithEmojiPresentation] leaves the ambiguous
    width alone, and the two constructors commute. *)
Theorem options_compose (opts : list Option) (width : EAWidth)
  (emoji : bool) :
  EastAsianAmbiguous
    (buildOptions (opts ++ [WithEastAsianAmbiguous width])) = width /\
  EastAsianAmbiguous (buildOptions (opts ++ [WithEmojiPresentation emoji])) =
  EastAsianAmbiguous (buildOptions opts) /\
  buildOptions
    (opts ++ [WithEastAsianAmbiguous width; WithEmojiPresentation emoji]) =
  buildOptions
    (opts ++ [WithEmojiPresentation emoji; WithEastAsianAmbiguous width]) /\
  EastAsianAmbiguous (buildOptions []) = EANarrow.
Proof.
  unfold buildOptions. rewrite !fold_left_app. simpl.
  repeat split.
Qed.

(** X19.  The table that [optimizeRanges] returns can be searched: on it
    [binarySearch] answers, for every code point, whether some range of the
    unsorted, unmerged input contains the code point. *)
Theorem generated_table_lookup
  (sortSlice : list runeRange -> list runeRange) (ranges : list runeRange)
  (r : rune) :
  sortsByFirst sortSlice -> wellFormed ranges -> belowMaxInt32 ranges ->
  binarySearch r (optimizeRanges sortSlice ranges) =
  Some (inTableb r ranges).
Proof.
  intros Hsort Hwf Hbelow.
  destruct (Optimize.optimizeRanges_gapped sortSlice Hsort ranges Hwf Hbelow)
    as [Hgap Hwf'].
  destruct (Optimize.gapped_invariants _ Hgap Hwf') as [Hs [_ [Hd _]]].
  pose proof (Optimize.optimizeRanges_inTable sortSlice Hsort ranges r
                Hbelow) as Hcov.
  destruct (inTableb r ranges) eqn:Hb.
  - apply SortedSearch.binarySearch_hit; try assumption.
    apply Hcov. apply inTable_inTableb. exact Hb.
  - apply Search.binarySearch_miss. intros Hin.
    apply Hcov in Hin. apply inTable_inTableb in Hin. congruence.
Qed.

(** [generated_table_lookup] on [wideTable] of tables.go and U+3000, which
    the search misses on the table as written. *)
Lemma generated_table_lookup_witness :
  sortsByFirst insertionSort /\
  wellFormed TablesGo.wideTable /\ belowMaxInt32 TablesGo.wideTable /\
  binarySearch 0x3000 (optimizeRanges insertionSort TablesGo.wideTable) =
  Some (inTableb 0x3000 TablesGo.wideTable) /\
  inTableb 0x3000 TablesGo.wideTable = true.
Proof.
  split; [exact Optimize.insertionSort_sorts |].
  split; [exact wideTable_wellFormed |].
  split; [exact wideTable_belowMaxInt32 |].
  split; [| reflexivity].
  exact (generated_table_lookup insertionSort TablesGo.wideTable 0x3000
           Optimize.insertionSort_sorts wideTable_wellFormed
           wideTable_belowMaxInt32).
Defined.

(** X20.  In [StringWidth] a variation selector overrides whatever precedes
    it: a two-rune string whose second rune is U+FE0E has width 1 and one
    whose second rune is U+FE0F has width 2, for every first rune, be it
    wide, zero-width or a control character. *)
Theorem variation_selector_overrides_any_rune
  (wideTableGenerated zeroWidthTableGenerated ambiguousTableGenerated
     : list runeRange)
  (unicodeInMark : rune -> bool) (s : list byte) (r selector : rune) :
  runes s = [r; selector] ->
  selector = 0xFE0E \/ selector = 0xFE0F ->
  StringWidth wideTableGenerated zeroWidthTableGenerated
    ambiguousTableGenerated unicodeInMark s =
  Some (if selector =? 0xFE0E then 1 else 2).
Proof.
  intros Hr Hsel.
  assert (Hascii : isASCIIOnly s = false).
  { destruct (isASCIIOnly s) eqn:H; [| reflexivity].
    pose proof (runes_ascii_below s H) as Hall. rewrite Hr in Hall.
    inversion Hall as [| ? ? _ Htl]; subst.
    inversion Htl; subst. lia. }
  unfold StringWidth. rewrite Hascii, Hr. cbn [stringWidthLoop].
  assert (Hri : isRegionalIndicator selector = false).
  { unfold isRegionalIndicator.
    destruct Hsel as [-> | ->]; reflexivity. }
  rewrite Hri, andb_false_r.
  destruct Hsel as [-> | ->]; reflexivity.
Qed.

(** [variation_selector_overrides_any_rune] on a line feed followed by
    U+FE0F. *)
Lemma variation_selector_overrides_any_rune_witness :
  runes [x0a; xef; xb8; x8f] = [0x0A; 0xFE0F] /\
  (0xFE0F = 0xFE0E \/ 0xFE0F = 0xFE0F) /\
  OnTablesGo.StringWidth [x0a; xef; xb8; x8f] = Some 2 /\
  OnTablesGo.RuneWidth 0x0A = Some 0.
Proof.
  split; [reflexivity |].
  split; [right; reflexivity |].
  split; [| reflexivity].
  exact (variation_selector_overrides_any_rune
           TablesGo.wideTable TablesGo.zeroWidthTable TablesGo.ambiguousTable
           combiningBlocks [x0a; xef; xb8; x8f] 0x0A 0xFE0F
           eq_refl (or_intror eq_refl)).
Defined.
